(** * QTask: a deferred-request broker

    Shallow embedding of [broker/managers/task.py], [broker/server.py] and
    [broker/logger.py], and the properties of the task validator, the task
    store and the scheduler loop that the specification states.

    Conventions of the embedding.
    - Values decoded by [json.loads] are the inductive [json]; a Python
      [dict] is a [gmap string json], [None] and JSON [null] coincide.
    - Numbers ([int], [float], the readings of [time.time()]) are exact
      rationals [Q]. An [int] too large for a [float] makes arithmetic with
      a [float] raise [OverflowError], as in Python; the rounding of binary
      floating point and its special values ([inf], [nan]) are not
      modelled.
    - A Python exception is a constructor of [exn]; code that may raise
      returns [result].
    - The outside world (clock, network, [random.choice], the builtin
      [int]) is a record of oracles [world]; the scheduler threads a
      counter of the effects performed so far through them.
    - One thread runs at a time: the interleaving of the scheduler thread
      with the request handlers is not modelled. *)

From Stdlib Require Import QArith Qabs Ascii String.
From stdpp Require Import gmap strings list.

#[local] Set Warnings "-register-all".
#[local] Open Scope string_scope.
#[local] Open Scope list_scope.

(** ** Python values and exceptions *)

Module Py.

Inductive json : Type :=
  | JNull
  | JBool (b : bool)
  | JNum (q : Q)
  | JStr (s : string)
  | JArr (l : list json)
  | JObj (m : gmap string json).

(** The exceptions the modelled code can raise. [ValidateError] is the
    repository's own ([errors.ValidateError]); [NetError] stands for what
    [socket] and [requests] raise (refused connection, timeout, bad URL),
    [OtherError] for an exception of any other class, by its name
    ([RecursionError], [UnicodeEncodeError], ...). *)
Inductive exn : Type :=
  | ValidateError (msg : string)
  | TypeError
  | AttributeError
  | IndexError
  | ValueError
  | OverflowError
  | NetError (what : string)
  | OtherError (cls : string).

Inductive result (A : Type) : Type :=
  | Ok (a : A)
  | Raise (e : exn).
Arguments Ok {A} a.
Arguments Raise {A} e.

(** Sequencing: the first exception raised ends the computation. *)
#[global] Instance result_ret : MRet result := fun A a => Ok a.
#[global] Instance result_bind : MBind result := fun A B k r =>
  match r with
  | Ok a => k a
  | Raise e => Raise e
  end.

(** [bool(v)]: Python truth value testing. *)
Definition truthy (v : json) : bool :=
  match v with
  | JNull => false
  | JBool b => b
  | JNum q => negb (Qeq_bool q 0)
  | JStr s => negb (String.eqb s "")
  | JArr l => match l with [] => false | _ :: _ => true end
  | JObj m => negb (bool_decide (m = ∅))
  end.

(** [isinstance(v, dict)] *)
Definition is_dict (v : json) : bool :=
  match v with
  | JObj _ => true
  | _ => false
  end.

(** [d.get(k)]: the value, or [None] for a missing key. *)
Definition dict_get (d : gmap string json) (k : string) : json :=
  default JNull (d !! k).

(** [d.get(k, dflt)] *)
Definition dict_get_default (d : gmap string json) (k : string) (dflt : json) : json :=
  default dflt (d !! k).

(** [v.get(k)] on an arbitrary value: only a dict has the method. *)
Definition py_get (v : json) (k : string) : result json :=
  match v with
  | JObj d => Ok (dict_get d k)
  | _ => Raise AttributeError
  end.

(** [v.get(k, dflt)] on an arbitrary value. *)
Definition py_get_default (v : json) (k : string) (dflt : json) : result json :=
  match v with
  | JObj d => Ok (dict_get_default d k dflt)
  | _ => Raise AttributeError
  end.

(** [v == s] for a string literal [s]. *)
Definition py_eq_str (v : json) (s : string) : bool :=
  match v with
  | JStr s' => String.eqb s' s
  | _ => false
  end.

(** The number a value denotes in arithmetic: numbers, and [bool] (a
    subclass of [int]). *)
Definition py_number (v : json) : option Q :=
  match v with
  | JNum q => Some q
  | JBool b => Some (if b then 1%Q else 0%Q)
  | _ => None
  end.

(** The numbers that have no [float]: converting an [int] rounds to the
    nearest [float], and raises [OverflowError] from [2^1024 - 2^970] on,
    the first value that rounds to [2^1024]. A [float] is never that large,
    so a number of this size is an [int]. *)
Definition float_overflow (q : Q) : bool :=
  Qle_bool (inject_Z (2 ^ 1024 - 2 ^ 970)%Z) (Qabs q).

(** [v + x] for a float [x]: a [TypeError] when [v] is not a number, an
    [OverflowError] when it is an [int] too large to convert. *)
Definition py_add_float (v : json) (x : Q) : result Q :=
  match py_number v with
  | Some q => if float_overflow q then Raise OverflowError else Ok (q + x)%Q
  | None => Raise TypeError
  end.

(** [v[k]] read defensively: [None] when [v] is not a dict or lacks [k]. *)
Definition field (v : json) (k : string) : json :=
  match v with
  | JObj d => dict_get d k
  | _ => JNull
  end.

(** A number equal to zero: [0], [0.0], [-0.0]. *)
Definition is_zero_number (v : json) : bool :=
  match v with
  | JNum q => Qeq_bool q 0
  | _ => false
  end.

(** [s.split(':')] *)
Fixpoint split_colon_aux (acc : string) (s : string) : list string :=
  match s with
  | EmptyString => [String.rev acc]
  | String c s' =>
      if Ascii.eqb c ":"%char
      then String.rev acc :: split_colon_aux EmptyString s'
      else split_colon_aux (String c acc) s'
  end.

Definition split_colon (s : string) : list string :=
  split_colon_aux EmptyString s.

(** [l[i]] *)
Definition py_index {A} (l : list A) (i : nat) : result A :=
  match l !! i with
  | Some a => Ok a
  | None => Raise IndexError
  end.

End Py.
Export Py.

(** ** [class Task] *)

Record Task : Type := mkTask {
  task_id : nat;          (* identity of the object: [Task] defines no [__eq__] *)
  title : json;
  address_type : json;
  address_link : json;
  settings_time : Q;
  settings_data : json;
}.

(** [Task.__init__(self, data)], run at clock reading [now]; [self] is the
    identity of the object under construction. *)
Definition Task_init (self : nat) (data : json) (now : Q) : result Task :=
  title ← py_get data "title";
  address ← py_get data "address";
  settings ← py_get data "settings";
  if negb (truthy title && is_dict address && is_dict settings)
  then Raise (ValidateError "Missing key title or address or settings")
  else
    type ← py_get address "type";
    link ← py_get address "link";
    if negb (truthy type && truthy link)
    then Raise (ValidateError "Missing key type or link in address")
    else
      time ← py_get settings "time";
      if negb (truthy time)
      then Raise (ValidateError "Missing key time in settings")
      else
        deadline ← py_add_float time now;
        sdata ← py_get_default settings "data" (JObj ∅);
        Ok {| task_id := self; title := title; address_type := type;
              address_link := link; settings_time := deadline;
              settings_data := sdata |}.

(** ** The outside world *)

(** One network operation of a dispatch. *)
Inductive netcall : Type :=
  | HttpGet (url : json) (payload : option (json * json))
      (* [requests.get(url)] or [requests.get(url, data=d, headers=h)] *)
  | SockConnect (host : string) (port : Z)
      (* [s.connect((host, port))] *)
  | SockSend (data : json).
      (* [s.send(bytes(json.dumps(data), 'utf8'))] *)

(** Oracles for what the code does not decide. The index is the number of
    effects the process has performed so far, so the same call may succeed
    once and fail later. [net] answers [None] when the call returns and
    [Some e] when it raises [e]; [py_int] is the builtin [int] on strings,
    [None] when it raises [ValueError]. [DEBUG] is the flag of
    [broker.config], which is not part of the sources read here; [print]
    answers for the two [print] calls it guards in [add_task], which write
    every stored task through [Task.__str__]: [None] when they return,
    [Some e] when one raises (a title that the encoding of the output
    cannot take, a closed output). *)
Record world : Type := mkWorld {
  clock : nat -> Q;
  net : nat -> netcall -> option exn;
  random_choice : nat -> nat;
  py_int : string -> option Z;
  DEBUG : bool;
  print : nat -> list Task -> option exn;
}.

(** ** [class TaskManager] *)

(** What one call of [__send_http] or [__send_socket] did: the task, the
    clock reading that passed the deadline test, the network operations
    started, and the exception that ended it, if any. *)
Record dispatch : Type := mkDispatch {
  d_task : Task;
  d_at : Q;
  d_calls : list netcall;
  d_error : option exn;
}.

(** The state of the process: the class attribute [TaskManager.__tasks],
    the next free object identity, the effect counter, the dispatches made
    so far (ghost) and the exceptions handed to [logging.error]. *)
Record state : Type := mkState {
  tasks : list Task;
  next_oid : nat;
  ticks : nat;
  sent : list dispatch;
  log : list exn;
}.

Definition set_tasks (l : list Task) (st : state) : state :=
  {| tasks := l; next_oid := next_oid st; ticks := ticks st;
     sent := sent st; log := log st |}.

Definition tick (st : state) : state :=
  {| tasks := tasks st; next_oid := next_oid st; ticks := S (ticks st);
     sent := sent st; log := log st |}.

Definition record_dispatch (d : dispatch) (st : state) : state :=
  {| tasks := tasks st; next_oid := next_oid st; ticks := ticks st;
     sent := sent st ++ [d]; log := log st |}.

Definition record_log (e : exn) (st : state) : state :=
  {| tasks := tasks st; next_oid := next_oid st; ticks := ticks st;
     sent := sent st; log := log st ++ [e] |}.

Definition alloc (st : state) : state :=
  {| tasks := tasks st; next_oid := S (next_oid st); ticks := ticks st;
     sent := sent st; log := log st |}.

Definition user_agents : list string := [
  "Mozilla/5.0 (Macintosh; Intel Mac OS X 10_15_7) AppleWebKit/537.36 (KHTML, like Gecko) Chrome/120.0.0.0 YaBrowser/24.1.0.0 Safari/537.36";
  "Mozilla/5.0 (X11; Linux x86_64) AppleWebKit/537.36 (KHTML, like Gecko) Chrome/120.0.0.0 YaBrowser/24.1.0.0 Safari/537.36";
  "Mozilla/5.0 (X11; Linux x86_64; rv:121.0) Gecko/20100101 Firefox/121.0";
  "Mozilla/5.0 (Windows NT 10.0; Win64; x64) AppleWebKit/537.36 (KHTML, like Gecko) Chrome/109.0.0.0 Safari/537.36";
  "Mozilla/5.0 (Macintosh; Intel Mac OS X 10_15_7) AppleWebKit/537.36 (KHTML, like Gecko) Chrome/109.0.0.0 Safari/537.36";
  "Mozilla/5.0 (Windows NT 10.0; Win64; x64) AppleWebKit/537.36 (KHTML, like Gecko) Chrome/108.0.0.0 Safari/537.36";
  "Mozilla/5.0 (Macintosh; Intel Mac OS X 10_15_7) AppleWebKit/537.36 (KHTML, like Gecko) Chrome/108.0.0.0 Safari/537.36";
  "Mozilla/5.0 (X11; Linux x86_64) AppleWebKit/537.36 (KHTML, like Gecko) Chrome/108.0.0.0 Safari/537.36";
  "Mozilla/5.0 (Macintosh; Intel Mac OS X 10_15_7) AppleWebKit/605.1.15 (KHTML, like Gecko) Version/16.1 Safari/605.1.15";
  "Mozilla/5.0 (Macintosh; Intel Mac OS X 13_1) AppleWebKit/605.1.15 (KHTML, like Gecko) Version/16.1 Safari/605.1.15"
].

(** [list.remove(x)]: drops the first element equal to [x], [None] for the
    [ValueError] of an absent one. Tasks compare by identity. *)
Fixpoint list_remove (x : Task) (l : list Task) : option (list Task) :=
  match l with
  | [] => None
  | y :: l' =>
      if Nat.eqb (task_id y) (task_id x) then Some l'
      else cons y <$> list_remove x l'
  end.

(** [TaskManager.append_task] *)
Definition append_task (task : Task) (st : state) : state :=
  set_tasks (tasks st ++ [task]) st.

(** [TaskManager.remove_task] *)
Definition remove_task (task : Task) (st : state) : state * result unit :=
  match list_remove task (tasks st) with
  | Some l => (set_tasks l st, Ok tt)
  | None => (st, Raise ValueError)
  end.

(** [TaskManager.get_tasks] *)
Definition get_tasks (st : state) : list Task := tasks st.

(** [TaskManager._get_random_user_agent] *)
Definition _get_random_user_agent (w : world) (k : nat) : json :=
  let i := (random_choice w k `mod` length user_agents)%nat in
  JObj {[ "User-Agent" := JStr (default "" (user_agents !! i)) ]}.

(** The body of [__send_http] before [self.remove_task(task)]: the calls
    started and the exception raised, if any. *)
Definition http_request (w : world) (k : nat) (task : Task)
  : list netcall * option exn :=
  if truthy (settings_data task) then
    let data := settings_data task in
    match py_get_default data "headers" (JObj ∅) with
    | Raise e => ([], Some e)
    | Ok headers =>
        let headers :=
          if py_eq_str headers "auto" then _get_random_user_agent w k
          else headers in
        let c := HttpGet (address_link task) (Some (data, headers)) in
        ([c], net w k c)
    end
  else
    let c := HttpGet (address_link task) None in
    ([c], net w k c).

(** The [with] block of [__send_socket]; opening the socket object itself
    is taken to succeed. *)
Definition socket_request (w : world) (k : nat) (task : Task)
  : list netcall * option exn :=
  match address_link task with
  | JStr link =>
      match py_index (split_colon link) 0 with
      | Raise e => ([], Some e)
      | Ok HOST =>
          match py_index (split_colon link) 1 with
          | Raise e => ([], Some e)
          | Ok PORT =>
              match py_int w PORT with
              | None => ([], Some ValueError)
              | Some port =>
                  let c := SockConnect HOST port in
                  match net w k c with
                  | Some e => ([c], Some e)
                  | None =>
                      let s := SockSend (settings_data task) in
                      ([c; s], net w k s)
                  end
              end
          end
      end
  | _ => ([], Some AttributeError)
  end.

(** A request followed by [self.remove_task(task)], which is reached only
    when the request raised nothing. *)
Definition send_then_remove (req : list netcall * option exn) (task : Task)
    (st : state) : state * list netcall * option exn :=
  match req with
  | (calls, Some e) => (st, calls, Some e)
  | (calls, None) =>
      match remove_task task st with
      | (st', Ok _) => (st', calls, None)
      | (st', Raise e) => (st', calls, Some e)
      end
  end.

(** [TaskManager.__send_http] *)
Definition __send_http (w : world) (task : Task) (st : state)
  : state * list netcall * option exn :=
  send_then_remove (http_request w (ticks st) task) task st.

(** [TaskManager.__send_socket] *)
Definition __send_socket (w : world) (task : Task) (st : state)
  : state * list netcall * option exn :=
  send_then_remove (socket_request w (ticks st) task) task st.

(** How a loop ended. *)
Inductive outcome : Type :=
  | Done (st : state)
  | Raised (st : state) (e : exn)
  | OutOfFuel.

(** The body of the [for] loop of [_manage] for one task. *)
Definition visit (w : world) (task : Task) (st : state) : state * option exn :=
  let now := clock w (ticks st) in
  let st := tick st in
  if negb (Qle_bool (settings_time task) now) then (st, None)
  else if py_eq_str (address_type task) "http" then
    let '(st', calls, err) := __send_http w task st in
    (record_dispatch (mkDispatch task now calls err) st', err)
  else if py_eq_str (address_type task) "socket" then
    let '(st', calls, err) := __send_socket w task st in
    (record_dispatch (mkDispatch task now calls err) st', err)
  else (st, None).

(** [for task in self.__tasks: ...]: the list iterator holds an index [i]
    into the list object itself, and the body may shrink the list. *)
Fixpoint for_tasks (w : world) (fuel : nat) (i : nat) (st : state) : outcome :=
  match tasks st !! i with
  | None => Done st
  | Some task =>
      match fuel with
      | O => OutOfFuel
      | S fuel' =>
          match visit w task st with
          | (st', None) => for_tasks w fuel' (S i) st'
          | (st', Some e) => Raised st' e
          end
      end
  end.

(** One turn of [while True]: the scan, then [time.sleep(TIMEOUT)]. *)
Definition scan (w : world) (st : state) : outcome :=
  match for_tasks w (length (tasks st)) 0 st with
  | Done st' => Done (tick st')
  | o => o
  end.

(** [TaskManager._manage], cut after [passes] turns of the loop; an
    exception leaves the loop and ends the thread. *)
Fixpoint _manage (w : world) (passes : nat) (st : state) : outcome :=
  match passes with
  | O => Done st
  | S n =>
      match scan w st with
      | Done st' => _manage w n st'
      | o => o
      end
  end.

(** ** [broker/logger.py] and [broker/server.py] *)

(** [@logger(raise_e=...)]: an exception of the wrapped call is logged, then
    raised again when [raise_e] holds and swallowed (the call returns
    [None]) otherwise. *)
Definition logger {A} (raise_e : bool) (f : state -> state * result A)
    (st : state) : state * result (option A) :=
  match f st with
  | (st', Ok a) => (st', Ok (Some a))
  | (st', Raise e) =>
      let st' := record_log e st' in
      if raise_e then (st', Raise e) else (st', Ok None)
  end.

(** [Task.__init__] reads the clock on line 62, which it reaches when its
    three guards have passed. *)
Definition reads_clock (data : json) : bool :=
  truthy (field data "title") &&
  is_dict (field data "address") && is_dict (field data "settings") &&
  truthy (field (field data "address") "type") &&
  truthy (field (field data "address") "link") &&
  truthy (field (field data "settings") "time").

(** The body of [add_task]: the task is built, appended, and with [DEBUG]
    on the store is printed; an exception of [print] leaves the function
    with the task already stored. *)
Definition add_task_body (w : world) (data : json) (st : state)
  : state * result unit :=
  let self := next_oid st in
  let now := clock w (ticks st) in
  let st := alloc st in
  let st := if reads_clock data then tick st else st in
  match Task_init self data now with
  | Raise e => (st, Raise e)
  | Ok task =>
      let st := append_task task st in
      if DEBUG w then
        match print w (ticks st) (get_tasks st) with
        | Some e => (st, Raise e)
        | None => (st, Ok tt)
        end
      else (st, Ok tt)
  end.

(** [add_task], decorated with [@logger(raise_e=True)]. *)
Definition add_task (w : world) (data : json) (st : state)
  : state * result (option unit) :=
  logger true (add_task_body w data) st.

(** The state of a freshly started process. *)
Definition initial : state :=
  {| tasks := []; next_oid := 0; ticks := 0; sent := []; log := [] |}.

(** ** Example inputs *)

(** [{"title": ttl, "address": {"type": kind, "link": link},
      "settings": {"time": time}}] *)
Definition submission (ttl kind link : string) (time : json) : json :=
  JObj (<["title" := JStr ttl]>
        (<["address" := JObj (<["type" := JStr kind]> {["link" := JStr link]})]>
         {["settings" := JObj {["time" := time]}]})).

(** The submission of the specification's first scenario. *)
Definition ping : json :=
  submission "ping" "http" "http://example.test/x" (JNum 0).

(** [int] on a string of ASCII digits. *)
Fixpoint digits_value (acc : Z) (s : string) : option Z :=
  match s with
  | EmptyString => Some acc
  | String c s' =>
      let n := Ascii.nat_of_ascii c in
      if (48 <=? n)%nat && (n <=? 57)%nat
      then digits_value (10 * acc + Z.of_nat (n - 48)) s'
      else None
  end.

Definition ascii_int (s : string) : option Z :=
  match s with
  | EmptyString => None
  | _ => digits_value 0 s
  end.

(** A world where every call returns, the clock advances by one second per
    effect, [random.choice] picks the first entry and [DEBUG] is on. *)
Definition calm : world :=
  {| clock := fun k => inject_Z (Z.of_nat k);
     net := fun _ _ => None;
     random_choice := fun _ => 0%nat;
     py_int := ascii_int;
     DEBUG := true;
     print := fun _ _ => None |}.

(** The same world with no listener on any port: every [connect] is
    refused, HTTP requests still return. *)
Definition no_listener : world :=
  {| clock := fun k => inject_Z (Z.of_nat k);
     net := fun _ c =>
       match c with
       | SockConnect _ _ => Some (NetError "ConnectionRefusedError")
       | _ => None
       end;
     random_choice := fun _ => 0%nat;
     py_int := ascii_int;
     DEBUG := false;
     print := fun _ _ => None |}.

(** The same world with the network down: every call raises. *)
Definition offline : world :=
  {| clock := fun k => inject_Z (Z.of_nat k);
     net := fun _ _ => Some (NetError "ConnectionError");
     random_choice := fun _ => 0%nat;
     py_int := ascii_int;
     DEBUG := false;
     print := fun _ _ => None |}.

(** The calm world with an output that cannot take what is printed. *)
Definition mute : world :=
  {| clock := fun k => inject_Z (Z.of_nat k);
     net := fun _ _ => None;
     random_choice := fun _ => 0%nat;
     py_int := ascii_int;
     DEBUG := true;
     print := fun _ _ => Some (OtherError "UnicodeEncodeError") |}.

(** A due HTTP task without data, and a due socket task. *)
Definition http_task (i : nat) : Task :=
  {| task_id := i; title := JStr "ping"; address_type := JStr "http";
     address_link := JStr "http://example.test/x"; settings_time := 0;
     settings_data := JObj ∅ |}.

Definition socket_task (i : nat) : Task :=
  {| task_id := i; title := JStr "probe"; address_type := JStr "socket";
     address_link := JStr "127.0.0.1:9"; settings_time := 0;
     settings_data := JObj ∅ |}.

Definition with_tasks (l : list Task) : state := set_tasks l initial.

(** Identities of the tasks in a store and of the tasks dispatched. *)
Definition ids (l : list Task) : list nat := task_id <$> l.
Definition sent_ids (st : state) : list nat := (fun d => task_id (d_task d)) <$> sent st.

(** ** Vocabulary for the properties of the scheduler *)

(** The elements at even positions ([take = true]) or at odd positions
    ([take = false]) of a list, counting from 0. *)
Fixpoint every_other {A} (take : bool) (l : list A) : list A :=
  match l with
  | [] => []
  | x :: l' => if take then x :: every_other false l' else every_other true l'
  end.

(** A dispatch whose send returned. *)
Definition succeeded (d : dispatch) : bool :=
  match d_error d with
  | None => true
  | Some _ => false
  end.

(** Identities of the tasks whose send returned. *)
Definition delivered_ids (st : state) : list nat :=
  (fun d => task_id (d_task d)) <$> List.filter succeeded (sent st).

(** The two tests of the loop body of [_manage] on a clock reading taken
    at effect [k]: the deadline has passed and the type is one of the two
    the loop knows. *)
Definition eligible (w : world) (k : nat) (task : Task) : bool :=
  Qle_bool (settings_time task) (clock w k) &&
  (py_eq_str (address_type task) "http" || py_eq_str (address_type task) "socket").

(** The request the loop body makes for a task it dispatches at effect
    [k]: the [http] branch is tested first. *)
Definition request (w : world) (k : nat) (task : Task) : list netcall * option exn :=
  if py_eq_str (address_type task) "http" then http_request w k task
  else socket_request w k task.

(** A string without [:]. *)
Fixpoint no_colon (s : string) : bool :=
  match s with
  | EmptyString => true
  | String c s' => negb (Ascii.eqb c ":"%char) && no_colon s'
  end.

(** ** [handle_request] *)

(** What [json.loads] does with a text: it returns a value, raises
    [json.JSONDecodeError], or raises something else ([RecursionError] on
    deep nesting, the plain [ValueError] of the limit on digits). *)
Inductive loads_result : Type :=
  | Loaded (v : json)
  | NotJSON
  | LoadsRaised (e : exn).

(** What the request handler gets from outside: the successive results of
    [conn.recv(1024)] (a chunk of bytes, or an exception; an empty chunk or
    the end of the list is the end of the stream), [bytes.decode] ([None]
    when it raises [UnicodeDecodeError], a [ValueError]) and [json.loads]. *)
Record peer : Type := mkPeer {
  recv : list (result string);
  decode : string -> option string;
  json_loads : string -> loads_result;
}.

(** The reading loop of [handle_request]; [res_data] is the text so far. *)
Fixpoint recv_all (decode : string -> option string) (chunks : list (result string))
    (res_data : string) : result string :=
  match chunks with
  | [] => Ok res_data
  | Raise e :: _ => Raise e
  | Ok data :: chunks' =>
      if String.eqb data "" then Ok res_data
      else match decode data with
           | None => Raise ValueError
           | Some text => recv_all decode chunks' (res_data +:+ text)
           end
  end.

(** The [try] statement of [handle_request]: what its two [except]
    clauses make of the outcome of the block. The value returned stands
    for the lines the handler prints; its own [print] calls are taken to
    return. *)
Definition handle_except (r : state * result (option unit))
  : state * result (list string) :=
  match r with
  | (st', Ok _) => (st', Ok [])
  | (st', Raise (ValidateError msg)) => (st', Ok [msg])
  | (st', Raise e) => (st', Raise e)
  end.

(** The body of [handle_request]. *)
Definition handle_request_body (w : world) (p : peer) (st : state)
  : state * result (list string) :=
  match recv_all (decode p) (recv p) "" with
  | Raise e => (st, Raise e)
  | Ok res_data =>
      match json_loads p res_data with
      | NotJSON => (st, Ok ["Ошибка: Некорректный формат JSON"])
      | LoadsRaised e => handle_except (st, Raise e)
      | Loaded data_json => handle_except (add_task w data_json st)
      end
  end.

(** [handle_request], decorated with [@logger(raise_e=True)]. *)
Definition handle_request (w : world) (p : peer) (st : state)
  : state * result (option (list string)) :=
  logger true (handle_request_body w p) st.

(** ** The process *)

(** What happens in the life of the process, one thing at a time: a
    request is handled, or the scheduler thread makes one turn of its loop.
    The thread is alive until a turn raises. *)
Inductive action : Type :=
  | Request (p : peer)
  | Turn.

Record process : Type := mkProcess {
  p_state : state;
  p_alive : bool;
}.

Definition act (w : world) (pr : process) (a : action) : process :=
  match a with
  | Request p =>
      {| p_state := (handle_request w p (p_state pr)).1; p_alive := p_alive pr |}
  | Turn =>
      if p_alive pr then
        match scan w (p_state pr) with
        | Done st' => {| p_state := st'; p_alive := true |}
        | Raised st' _ => {| p_state := st'; p_alive := false |}
        | OutOfFuel => pr
        end
      else pr
  end.

(** [server.py] from its start: one manager, one scheduler thread. *)
Definition life (w : world) (acts : list action) : process :=
  foldl (act w) {| p_state := initial; p_alive := true |} acts.

(** ** Objects: the class [TaskManager] and its instances *)

(** [self.__tasks] and [cls.__instance] are attribute lookups; what they
    find depends on which namespace holds the name. This part models the
    namespaces: the class's, and one per instance. *)
Module Objects.

(** What an attribute can hold. *)
Inductive pyval : Type :=
  | VList (loc : nat)          (* a list object *)
  | VObj (ref : nat)           (* a [TaskManager] object *)
  | VStrs (l : list string)    (* the table [user_agents] *)
  | VFun (name : string).      (* a function defined in the class body *)

Record heap : Type := mkHeap {
  class_dict : gmap string pyval;              (* [TaskManager.__dict__] *)
  inst_dicts : gmap nat (gmap string pyval);   (* [__dict__] of each instance *)
  lists : gmap nat (list Task);                (* contents of the list objects *)
  next_ref : nat;                              (* next free object identity *)
}.

(** Private name mangling: inside the class body an identifier [__x] that
    does not end in two underscores reads [_TaskManager__x]. String
    literals, such as the argument of [hasattr], are left alone. *)
Definition mangle (name : string) : string :=
  if String.prefix "__" name && negb (String.prefix "__" (String.rev name))
  then "_TaskManager" +:+ name
  else name.

(** The namespace of the class once its body has run, with the one list
    object [[]] it created. *)
Definition class_body : gmap string pyval :=
  <[mangle "__tasks" := VList 0]>
  (<["user_agents" := VStrs user_agents]>
  (<["append_task" := VFun "append_task"]>
  (<["remove_task" := VFun "remove_task"]>
  (<["get_tasks" := VFun "get_tasks"]>
  (<["manage" := VFun "manage"]>
  (<["_manage" := VFun "_manage"]>
  (<[mangle "__send_socket" := VFun "__send_socket"]>
  (<[mangle "__send_http" := VFun "__send_http"]>
  (<["_get_random_user_agent" := VFun "_get_random_user_agent"]>
  (<[mangle "__new__" := VFun "__new__"]> ∅)))))))))).

Definition start : heap :=
  {| class_dict := class_body; inst_dicts := ∅; lists := {[ 0%nat := [] ]};
     next_ref := 0 |}.

(** [hasattr(cls, name)]; neither [object] nor [type] has an attribute
    called [instance], so the class namespace decides. *)
Definition hasattr_cls (h : heap) (name : string) : bool :=
  bool_decide (is_Some (class_dict h !! name)).

(** [getattr(self, name)]: the instance namespace, then the class. *)
Definition getattr (h : heap) (self : nat) (name : string) : option pyval :=
  d ← inst_dicts h !! self;
  match d !! name with
  | Some v => Some v
  | None => class_dict h !! name
  end.

(** [super().__new__(cls)]: a new object with an empty namespace. *)
Definition object_new (h : heap) : heap * nat :=
  ({| class_dict := class_dict h;
      inst_dicts := <[next_ref h := ∅]> (inst_dicts h);
      lists := lists h;
      next_ref := S (next_ref h) |}, next_ref h).

(** [cls.name = v] *)
Definition setattr_cls (name : string) (v : pyval) (h : heap) : heap :=
  {| class_dict := <[name := v]> (class_dict h); inst_dicts := inst_dicts h;
     lists := lists h; next_ref := next_ref h |}.

(** [TaskManager.__new__(cls)], which is all that [TaskManager()] runs. *)
Definition __new__ (h : heap) : heap * result pyval :=
  let h1 :=
    if negb (hasattr_cls h "instance")
    then let '(h', r) := object_new h in setattr_cls (mangle "__instance") (VObj r) h'
    else h in
  match class_dict h1 !! mangle "__instance" with
  | Some v => (h1, Ok v)
  | None => (h1, Raise AttributeError)
  end.

(** The list object that [self.__tasks] denotes. *)
Definition self_tasks (h : heap) (self : nat) : result nat :=
  match getattr h self (mangle "__tasks") with
  | Some (VList loc) => Ok loc
  | _ => Raise AttributeError
  end.

Definition set_list (loc : nat) (l : list Task) (h : heap) : heap :=
  {| class_dict := class_dict h; inst_dicts := inst_dicts h;
     lists := <[loc := l]> (lists h); next_ref := next_ref h |}.

(** [self.__tasks.append(task)] *)
Definition append_task (h : heap) (self : nat) (task : Task) : heap * result unit :=
  match self_tasks h self with
  | Raise e => (h, Raise e)
  | Ok loc =>
      match lists h !! loc with
      | Some l => (set_list loc (l ++ [task]) h, Ok tt)
      | None => (h, Raise AttributeError)
      end
  end.

(** [self.__tasks.remove(task)] *)
Definition remove_task (h : heap) (self : nat) (task : Task) : heap * result unit :=
  match self_tasks h self with
  | Raise e => (h, Raise e)
  | Ok loc =>
      match lists h !! loc with
      | Some l =>
          match list_remove task l with
          | Some l' => (set_list loc l' h, Ok tt)
          | None => (h, Raise ValueError)
          end
      | None => (h, Raise AttributeError)
      end
  end.

(** [return self.__tasks], read at the time of the call. *)
Definition get_tasks (h : heap) (self : nat) : result (list Task) :=
  match self_tasks h self with
  | Raise e => Raise e
  | Ok loc =>
      match lists h !! loc with
      | Some l => Ok l
      | None => Raise AttributeError
      end
  end.

(** What a client of the class can do, and the heaps it can reach. *)
Inductive op : Type :=
  | New
  | Append (self : nat) (task : Task)
  | Remove (self : nat) (task : Task).

Definition step (h : heap) (o : op) : heap :=
  match o with
  | New => (__new__ h).1
  | Append self task => (append_task h self task).1
  | Remove self task => (remove_task h self task).1
  end.

Definition run (ops : list op) : heap := foldl step start ops.

(** The contents of the list object of the class body. *)
Definition shared (h : heap) : list Task := default [] (lists h !! 0%nat).

(** What every reachable heap satisfies: the class has no attribute
    [instance], its [__tasks] is the list object created by the class body,
    no instance has attributes of its own, and object identities below
    [next_ref] are the ones in use. *)
Record wf (h : heap) : Prop := mkWf {
  wf_no_instance : class_dict h !! "instance" = None;
  wf_tasks : class_dict h !! "_TaskManager__tasks" = Some (VList 0);
  wf_inst : forall r d, inst_dicts h !! r = Some d -> d = ∅;
  wf_list : is_Some (lists h !! 0%nat);
  wf_fresh : forall r, is_Some (inst_dicts h !! r) -> r < next_ref h;
}.

End Objects.

(** * The validator *)

Section Validator.

Implicit Types (data : json) (m : gmap string json) (now : Q) (t : Task).

(** What a successful construction looks like: the data is a dict whose
    [address] and [settings] are dicts, the four required values are
    truthy, the delay is a number, and the fields are copied. *)
Lemma Task_init_Ok self data now t :
  Task_init self data now = Ok t <->
  exists m a s d,
    data = JObj m /\ dict_get m "address" = JObj a /\ dict_get m "settings" = JObj s /\
    truthy (dict_get m "title") = true /\
    truthy (dict_get a "type") = true /\ truthy (dict_get a "link") = true /\
    truthy (dict_get s "time") = true /\
    py_number (dict_get s "time") = Some d /\ float_overflow d = false /\
    t = {| task_id := self; title := dict_get m "title";
           address_type := dict_get a "type"; address_link := dict_get a "link";
           settings_time := (d + now)%Q;
           settings_data := dict_get_default s "data" (JObj ∅) |}.
Proof.
  split.
  - destruct data as [| | | | |m]; try discriminate.
    unfold Task_init; cbn.
    destruct (truthy (dict_get m "title")) eqn:Ht; try discriminate.
    destruct (dict_get m "address") as [| | | | |a] eqn:Ha; try discriminate.
    destruct (dict_get m "settings") as [| | | | |s] eqn:Hs; try discriminate.
    cbn.
    destruct (truthy (dict_get a "type")) eqn:Hty; try discriminate.
    destruct (truthy (dict_get a "link")) eqn:Hl; try discriminate.
    cbn.
    destruct (truthy (dict_get s "time")) eqn:Htm; try discriminate.
    cbn. unfold py_add_float.
    destruct (py_number (dict_get s "time")) as [d|] eqn:Hd; try discriminate.
    destruct (float_overflow d) eqn:Hov; try discriminate.
    cbn. intros [= <-]. exists m, a, s, d. repeat split; auto.
  - intros (m & a & s & d & -> & Ha & Hs & Ht & Hty & Hl & Htm & Hd & Hov & ->).
    unfold Task_init; cbn. rewrite Ht, Ha, Hs. cbn. rewrite Hty, Hl. cbn.
    rewrite Htm. cbn. unfold py_add_float. rewrite Hd, Hov. reflexivity.
Qed.

(** Closes a case where a guard of [Task.__init__] has raised. *)
Ltac guard_fired := solve [split; [intros _; auto 7 | intros _; eauto]].

(** The construction fails with [ValidateError] exactly when one of the
    three guards fires; a delay that is truthy but not a number passes them
    and fails later with [TypeError]. *)
Lemma Task_init_ValidateError self m now :
  (exists msg, Task_init self (JObj m) now = Raise (ValidateError msg)) <->
  truthy (dict_get m "title") = false \/
  is_dict (dict_get m "address") = false \/
  is_dict (dict_get m "settings") = false \/
  truthy (field (dict_get m "address") "type") = false \/
  truthy (field (dict_get m "address") "link") = false \/
  truthy (field (dict_get m "settings") "time") = false.
Proof.
  unfold Task_init; cbn.
  destruct (truthy (dict_get m "title")) eqn:Ht; cbn; [| guard_fired].
  destruct (dict_get m "address") as [| | | | |a] eqn:Ha; cbn; try guard_fired.
  destruct (dict_get m "settings") as [| | | | |s] eqn:Hs; cbn; try guard_fired.
  destruct (truthy (dict_get a "type")) eqn:Hty; cbn; [| guard_fired].
  destruct (truthy (dict_get a "link")) eqn:Hl; cbn; [| guard_fired].
  destruct (truthy (dict_get s "time")) eqn:Htm; cbn; [| guard_fired].
  unfold py_add_float.
  split.
  - intros [msg H].
    destruct (py_number (dict_get s "time")) as [d|];
      [destruct (float_overflow d)|]; discriminate.
  - intros [H|[H|[H|[H|[H|H]]]]]; discriminate.
Qed.

(** [add_task] with its decorator, case by case. *)
Lemma add_task_eq w data st :
  add_task w data st =
    let st0 := if reads_clock data then tick (alloc st) else alloc st in
    match Task_init (next_oid st) data (clock w (ticks st)) with
    | Raise e => (record_log e st0, Raise e)
    | Ok t =>
        let st1 := append_task t st0 in
        if DEBUG w then
          match print w (ticks st1) (tasks st1) with
          | Some e => (record_log e st1, Raise e)
          | None => (st1, Ok (Some tt))
          end
        else (st1, Ok (Some tt))
    end.
Proof.
  unfold add_task, logger, add_task_body.
  destruct (Task_init _ _ _); cbn; [|reflexivity].
  destruct (DEBUG w); [|reflexivity].
  unfold get_tasks. destruct (print w _ _); reflexivity.
Qed.

(** When the construction fails, [add_task] raises its exception and
    appends nothing. *)
Lemma add_task_rejected w data st e :
  Task_init (next_oid st) data (clock w (ticks st)) = Raise e ->
  exists st', add_task w data st = (st', Raise e) /\
              tasks st' = tasks st /\ sent st' = sent st /\
              log st' = log st ++ [e] /\ next_oid st' = S (next_oid st).
Proof.
  intros H. rewrite add_task_eq, H. cbn. eexists. split; [reflexivity|].
  destruct (reads_clock data); repeat split.
Qed.

(** When the construction succeeds, the task is appended, whatever
    happens to the printing. *)
Lemma add_task_accepted w data st t :
  Task_init (next_oid st) data (clock w (ticks st)) = Ok t ->
  exists st' r, add_task w data st = (st', r) /\
                tasks st' = tasks st ++ [t] /\ sent st' = sent st /\
                next_oid st' = S (next_oid st) /\
                (r = Ok (Some tt) \/
                 exists e, r = Raise e /\ DEBUG w = true /\ log st' = log st ++ [e]).
Proof.
  intros H. rewrite add_task_eq, H. cbn.
  destruct (reads_clock data), (DEBUG w); cbn;
    try (do 2 eexists; split; [reflexivity|]; repeat split; auto; fail);
    match goal with |- context [print w ?k ?l] => destruct (print w k l) end;
    do 2 eexists; (split; [reflexivity|]); repeat split; eauto.
Qed.

(** With an empty store the loop only sleeps. *)
Lemma _manage_empty w passes st :
  tasks st = [] ->
  exists st', _manage w passes st = Done st' /\ tasks st' = [] /\ sent st' = sent st.
Proof.
  induction passes as [|n IH] in st |- *; intros Hst; cbn; [eauto|].
  unfold scan. rewrite Hst. cbn. rewrite Hst. cbn.
  destruct (IH (tick st)) as (st' & -> & ? & ?); [exact Hst|]. eauto.
Qed.

End Validator.

(** ** Claims about the validator *)

(** C4. The specification's first scenario does not get past the
    validator: a delay of [0] is falsy, so the guard meant for a missing
    [time] raises [ValidateError], whatever the clock reads; the store
    stays empty and no scheduler run dispatches anything for it. *)
Theorem ping_rejected (w : world) (self passes : nat) (now : Q) :
  Task_init self ping now = Raise (ValidateError "Missing key time in settings") /\
  (add_task w ping initial).2 = Raise (ValidateError "Missing key time in settings") /\
  tasks (add_task w ping initial).1 = [] /\
  exists st, _manage w passes (add_task w ping initial).1 = Done st /\ sent st = [].
Proof.
  assert (H : forall s n, Task_init s ping n =
            Raise (ValidateError "Missing key time in settings")) by reflexivity.
  split; [apply H|].
  rewrite add_task_eq, H. cbn.
  repeat split.
  match goal with |- context [_manage w passes ?s] =>
    destruct (_manage_empty w passes s) as (st' & -> & _ & Hs); [reflexivity|]
  end.
  eauto.
Qed.

(** C5, counterexample. A submission whose type is neither [http] nor
    [socket] and whose delay is negative is accepted: the task is built,
    with a deadline before the time of submission, and stored. *)
Lemma odd_submission_accepted :
  exists t,
    Task_init 0 (submission "job" "ftp" "example" (JNum (-5))) 100 = Ok t /\
    address_type t = JStr "ftp" /\
    (settings_time t < 100)%Q /\
    ids (tasks (add_task calm (submission "job" "ftp" "example" (JNum (-5))) initial).1) = [0%nat].
Proof.
  eexists. split; [vm_compute; reflexivity|].
  split; [reflexivity|]. split; vm_compute; reflexivity.
Qed.

(** C5, amended. For a submission (a dict) whose delay is not the number
    zero, the construction fails with [ValidateError] exactly when the
    title is missing or falsy, [address] or [settings] is not a dict,
    [type] or [link] is missing or falsy, or [time] is missing or falsy.
    When none of these holds, a delay that is not a number makes it fail
    with [TypeError], and a delay that is a number with a [float] is
    accepted whatever its sign and whatever the type, which is stored as
    submitted. Whenever the construction fails, [add_task] raises the same
    exception and the store is as it was. *)
Theorem validate_error_conditions (w : world) (m : gmap string json) (st : state) :
  is_zero_number (field (dict_get m "settings") "time") = false ->
  let r := Task_init (next_oid st) (JObj m) (clock w (ticks st)) in
  let time := field (dict_get m "settings") "time" in
  let refused :=
    truthy (dict_get m "title") = false \/
    is_dict (dict_get m "address") = false \/
    is_dict (dict_get m "settings") = false \/
    truthy (field (dict_get m "address") "type") = false \/
    truthy (field (dict_get m "address") "link") = false \/
    truthy time = false in
  ((exists msg, r = Raise (ValidateError msg)) <-> refused) /\
  (~ refused -> py_number time = None -> r = Raise TypeError) /\
  (~ refused -> forall d, py_number time = Some d -> float_overflow d = false ->
     r = Ok {| task_id := next_oid st; title := dict_get m "title";
               address_type := field (dict_get m "address") "type";
               address_link := field (dict_get m "address") "link";
               settings_time := (d + clock w (ticks st))%Q;
               settings_data :=
                 match dict_get m "settings" with
                 | JObj s => dict_get_default s "data" (JObj ∅)
                 | _ => JNull
                 end |}) /\
  (forall e, r = Raise e ->
     exists st', add_task w (JObj m) st = (st', Raise e) /\ tasks st' = tasks st).
Proof.
  intros _ r time refused.
  assert (Hpass : ~ refused -> exists a s,
            dict_get m "address" = JObj a /\ dict_get m "settings" = JObj s /\
            truthy (dict_get m "title") = true /\
            truthy (dict_get a "type") = true /\ truthy (dict_get a "link") = true /\
            truthy (dict_get s "time") = true).
  { subst refused time. intros Hn.
    destruct (truthy (dict_get m "title")) eqn:Ht; [|tauto].
    destruct (dict_get m "address") as [| | | | |a] eqn:Ha; cbn in Hn; try tauto.
    destruct (dict_get m "settings") as [| | | | |s] eqn:Hs; cbn in Hn; try tauto.
    destruct (truthy (dict_get a "type")) eqn:Hty; [|tauto].
    destruct (truthy (dict_get a "link")) eqn:Hl; [|tauto].
    destruct (truthy (dict_get s "time")) eqn:Htm; [|tauto].
    exists a, s. repeat split; assumption. }
  split; [apply Task_init_ValidateError|]. split; [|split].
  - intros Hn Hnum. destruct (Hpass Hn) as (a & s & Ha & Hs & Ht & Hty & Hl & Htm).
    subst r time. rewrite Hs in Hnum. cbn in Hnum.
    unfold Task_init; cbn. rewrite Ht, Ha, Hs. cbn. rewrite Hty, Hl. cbn.
    rewrite Htm. cbn. unfold py_add_float. rewrite Hnum. reflexivity.
  - intros Hn d Hnum Hov. destruct (Hpass Hn) as (a & s & Ha & Hs & Ht & Hty & Hl & Htm).
    subst r time. rewrite Hs in Hnum. cbn in Hnum. rewrite Ha, Hs. cbn [field].
    apply Task_init_Ok. exists m, a, s, d. repeat split; auto.
  - intros e He. destruct (add_task_rejected w (JObj m) st e He) as (st' & ? & ? & _).
    eauto.
Qed.

Lemma validate_error_conditions_witness :
  let m : gmap string json :=
    <["title" := JStr "x"]> {["settings" := JObj {["time" := JStr "soon"]}]} in
  let st := with_tasks [http_task 3] in
  is_zero_number (field (dict_get m "settings") "time") = false /\
  exists st',
    add_task mute (JObj m) st =
      (st', Raise (ValidateError "Missing key title or address or settings")) /\
    tasks st' = tasks st.
Proof.
  intros m st.
  assert (H : is_zero_number (field (dict_get m "settings") "time") = false)
    by reflexivity.
  split; [exact H|].
  exact (proj2 (proj2 (proj2 (validate_error_conditions mute m st H))) _ eq_refl).
Defined.

(** C7, counterexample. An [http] task whose link starts with neither
    [http://] nor [https://], and a [socket] task whose link has no port,
    are both admitted. *)
Lemma malformed_links_admitted :
  (exists t, Task_init 0 (submission "a" "http" "ftp://example.test/x" (JNum 5)) 0 = Ok t /\
             address_type t = JStr "http" /\
             address_link t = JStr "ftp://example.test/x" /\
             String.prefix "http://" "ftp://example.test/x" = false /\
             String.prefix "https://" "ftp://example.test/x" = false) /\
  (exists t, Task_init 1 (submission "b" "socket" "localhost" (JNum 5)) 0 = Ok t /\
             address_type t = JStr "socket" /\
             address_link t = JStr "localhost" /\
             split_colon "localhost" = ["localhost"]).
Proof.
  split; eexists; (split; [vm_compute; reflexivity|]); repeat split.
Qed.

(** C7, amended. Every task the constructor admits carries the [type] and
    [link] of the submission unchanged, and both are truthy (present and
    non-empty); the link is not compared with the type in any way. *)
Theorem admitted_address (self : nat) (data : json) (now : Q) (t : Task) :
  Task_init self data now = Ok t ->
  address_type t = field (field data "address") "type" /\
  address_link t = field (field data "address") "link" /\
  truthy (address_type t) = true /\ truthy (address_link t) = true.
Proof.
  intros (m & a & s & d & -> & Ha & Hs & Ht & Hty & Hl & Htm & Hd & _ & ->)%Task_init_Ok.
  cbn. rewrite Ha. cbn. auto.
Qed.

Lemma admitted_address_witness :
  let data := submission "b" "socket" "localhost" (JNum 5) in
  let t := {| task_id := 1; title := JStr "b"; address_type := JStr "socket";
              address_link := JStr "localhost"; settings_time := 5 + 0;
              settings_data := JObj ∅ |} in
  Task_init 1 data 0 = Ok t /\
  address_type t = field (field data "address") "type" /\
  address_link t = field (field data "address") "link" /\
  truthy (address_type t) = true /\ truthy (address_link t) = true.
Proof.
  intros data t.
  assert (H : Task_init 1 data 0 = Ok t) by reflexivity.
  split; [exact H|]. exact (admitted_address 1 data 0 t H).
Defined.

(** Whenever the constructor accepts a submission, the delay it was given
    is a number and the deadline of the task is that delay added to the
    clock reading taken during construction. *)
Lemma Task_init_deadline (self : nat) (data : json) (now : Q) (t : Task) :
  Task_init self data now = Ok t ->
  exists d, py_number (field (field data "settings") "time") = Some d /\
            settings_time t = (d + now)%Q.
Proof.
  intros (m & a & s & d & -> & Ha & Hs & Ht & Hty & Hl & Htm & Hd & _ & ->)%Task_init_Ok.
  exists d. cbn. rewrite Hs. cbn. auto.
Qed.

(** C9. A submission that is valid by the specification - a non-empty
    title, a type [http] or [socket], a non-empty link, a delay that is a
    number not below zero (and not beyond the range of [float]) - gets a
    task whose deadline is the delay added to the clock reading, the sum
    being exact here, unless the delay is zero: then no task is built, the
    guard for a missing [time] raises [ValidateError]. *)
Theorem valid_submission_deadline (self : nat) (m a s : gmap string json)
    (ttl kind link : string) (d now : Q) :
  dict_get m "title" = JStr ttl -> ttl <> "" ->
  dict_get m "address" = JObj a ->
  dict_get a "type" = JStr kind -> kind = "http" \/ kind = "socket" ->
  dict_get a "link" = JStr link -> link <> "" ->
  dict_get m "settings" = JObj s ->
  dict_get s "time" = JNum d -> (0 <= d)%Q -> float_overflow d = false ->
  if Qeq_bool d 0
  then Task_init self (JObj m) now = Raise (ValidateError "Missing key time in settings")
  else exists t, Task_init self (JObj m) now = Ok t /\ settings_time t = (d + now)%Q.
Proof.
  intros Ht Httl Ha Hk Hkind Hl Hlink Hs Hd _ Hov.
  assert (Etitle : truthy (dict_get m "title") = true).
  { rewrite Ht. cbn. apply negb_true_iff, String.eqb_neq, Httl. }
  assert (Etype : truthy (dict_get a "type") = true).
  { rewrite Hk. destruct Hkind as [-> | ->]; reflexivity. }
  assert (Elink : truthy (dict_get a "link") = true).
  { rewrite Hl. cbn. apply negb_true_iff, String.eqb_neq, Hlink. }
  destruct (Qeq_bool d 0) eqn:Hz.
  - unfold Task_init; cbn. rewrite Etitle, Ha, Hs. cbn. rewrite Etype, Elink. cbn.
    rewrite Hd. cbn. rewrite Hz. reflexivity.
  - exists {| task_id := self; title := dict_get m "title";
              address_type := dict_get a "type"; address_link := dict_get a "link";
              settings_time := (d + now)%Q;
              settings_data := dict_get_default s "data" (JObj ∅) |}.
    split; [|reflexivity].
    apply Task_init_Ok. exists m, a, s, d. rewrite Hd. cbn [truthy py_number].
    rewrite Hz. repeat split; auto.
Qed.

Lemma valid_submission_deadline_witness :
  let a : gmap string json :=
    <["type" := JStr "http"]> {["link" := JStr "http://example.test/x"]} in
  let s : gmap string json := {["time" := JNum 0]} in
  let m : gmap string json :=
    <["title" := JStr "ping"]> (<["address" := JObj a]> {["settings" := JObj s]}) in
  ping = JObj m /\ (0 <= 0)%Q /\ float_overflow 0 = false /\
  Task_init 4 (JObj m) 100 = Raise (ValidateError "Missing key time in settings").
Proof.
  intros a s m.
  assert (H0 : (0 <= 0)%Q) by apply Qle_refl.
  assert (Hov : float_overflow 0 = false) by reflexivity.
  split; [reflexivity|]. split; [exact H0|]. split; [exact Hov|].
  refine (valid_submission_deadline 4 m a s "ping" "http" "http://example.test/x" 0 100
            eq_refl _ eq_refl eq_refl (or_introl eq_refl) eq_refl _ eq_refl eq_refl H0 Hov);
    discriminate.
Defined.

(** * The store and the scheduler *)

Section Scheduler.

Implicit Types (w : world) (st : state) (task : Task) (l : list Task).

(** ** [list.remove] *)

Lemma list_remove_Some task l l' :
  list_remove task l = Some l' ->
  exists l1 y l2, l = l1 ++ y :: l2 /\ l' = l1 ++ l2 /\
                  task_id y = task_id task /\ task_id task ∉ ids l1.
Proof.
  induction l as [|y l IH] in l' |- *; cbn; [discriminate|].
  destruct (Nat.eqb_spec (task_id y) (task_id task)) as [Heq|Hne].
  - intros [= <-]. exists [], y, l. repeat split; auto. cbn. apply not_elem_of_nil.
  - destruct (list_remove task l) as [l0|]; cbn; [|discriminate].
    intros [= <-]. destruct (IH l0 eq_refl) as (l1 & z & l2 & -> & -> & Hz & Hn).
    exists (y :: l1), z, l2. repeat split; auto.
    cbn. rewrite not_elem_of_cons. split; auto.
Qed.

Lemma list_remove_None task l :
  list_remove task l = None <-> task_id task ∉ ids l.
Proof.
  induction l as [|y l IH]; cbn.
  - split; [intros _; apply not_elem_of_nil | reflexivity].
  - rewrite not_elem_of_cons.
    destruct (Nat.eqb_spec (task_id y) (task_id task)) as [Heq|Hne].
    + split; [discriminate | intros [H _]; congruence].
    + destruct (list_remove task l); cbn.
      * split; [discriminate|]. intros [_ H]. apply IH in H. discriminate.
      * split; [|reflexivity]. intros _. split; [congruence | apply IH; reflexivity].
Qed.

Lemma list_remove_present task l :
  task_id task ∈ ids l -> exists l', list_remove task l = Some l'.
Proof.
  intros Hin. destruct (list_remove task l) as [l'|] eqn:H; [eauto|].
  apply list_remove_None in H. contradiction.
Qed.

Lemma list_remove_length task l l' :
  list_remove task l = Some l' -> length l = S (length l').
Proof.
  intros (l1 & y & l2 & -> & -> & _)%list_remove_Some.
  rewrite !length_app. cbn. lia.
Qed.

(** Removing a task moves its identity out of the store: whatever list of
    identities [s] is disjoint from the store stays so with it added. *)
Lemma list_remove_NoDup (s : list nat) task l l' :
  list_remove task l = Some l' ->
  NoDup (s ++ ids l) -> NoDup ((s ++ [task_id task]) ++ ids l').
Proof.
  intros (l1 & y & l2 & -> & -> & Hy & _)%list_remove_Some.
  unfold ids. rewrite !fmap_app, fmap_cons, Hy.
  intros H. eapply NoDup_Permutation_proper; [|exact H].
  rewrite <- (assoc_L (++) s). apply Permutation_app_head.
  cbn. rewrite Permutation_middle. reflexivity.
Qed.

Lemma lookup_ids l i task :
  l !! i = Some task -> task_id task ∈ ids l.
Proof.
  intros H. unfold ids. apply list_elem_of_fmap. exists task. split; [reflexivity|].
  eapply list_elem_of_lookup_2; eauto.
Qed.

(** ** One visit of the loop body *)

Lemma send_then_remove_cases req task st st' calls err :
  task_id task ∈ ids (tasks st) ->
  send_then_remove req task st = (st', calls, err) ->
  calls = req.1 /\
  ((err = None /\ req.2 = None /\
    exists l, list_remove task (tasks st) = Some l /\ st' = set_tasks l st) \/
   (exists e, err = Some e /\ req.2 = Some e /\ st' = st)).
Proof.
  intros Hin. destruct req as [c [e|]]; cbn.
  - intros [= <- <- <-]. split; [reflexivity|]. right. eauto.
  - unfold remove_task. destruct (list_remove_present _ _ Hin) as [l ->].
    intros [= <- <- <-]. split; [reflexivity|]. left. eauto.
Qed.

(** The three ways a visit can go: the task is passed over (not due, or of
    a type other than [http] and [socket]); it is sent and removed; or its
    dispatch raises and the store is as before. *)
Lemma visit_cases w task st st' err :
  task_id task ∈ ids (tasks st) ->
  visit w task st = (st', err) ->
  let now := clock w (ticks st) in
  (err = None /\ st' = tick st) \/
  (Qle_bool (settings_time task) now = true /\
   ((err = None /\ exists calls l, list_remove task (tasks st) = Some l /\
       st' = record_dispatch (mkDispatch task now calls None) (set_tasks l (tick st))) \/
    (exists calls e, err = Some e /\
       st' = record_dispatch (mkDispatch task now calls (Some e)) (tick st)))).
Proof.
  intros Hin. unfold visit.
  destruct (Qle_bool (settings_time task) (clock w (ticks st))) eqn:Hdue; cbn;
    [|intros [= <- <-]; auto].
  assert (Hin' : task_id task ∈ ids (tasks (tick st))) by exact Hin.
  destruct (py_eq_str (address_type task) "http").
  - unfold __send_http.
    destruct (send_then_remove _ task (tick st)) as [[st1 calls] err1] eqn:Hs.
    apply send_then_remove_cases in Hs as [_ Hs]; [|exact Hin'].
    intros [= <- <-]. right. split; [reflexivity|].
    destruct Hs as [(-> & _ & l & Hl & ->)|(e & -> & _ & ->)]; [left | right]; eauto 6.
  - destruct (py_eq_str (address_type task) "socket"); [|intros [= <- <-]; auto].
    unfold __send_socket.
    destruct (send_then_remove _ task (tick st)) as [[st1 calls] err1] eqn:Hs.
    apply send_then_remove_cases in Hs as [_ Hs]; [|exact Hin'].
    intros [= <- <-]. right. split; [reflexivity|].
    destruct Hs as [(-> & _ & l & Hl & ->)|(e & -> & _ & ->)]; [left | right]; eauto 6.
Qed.

(** ** The loops *)

(** A property kept by every visit that returns holds when the scan is
    over; one established by a visit that raises holds of the state the
    exception leaves behind. *)
Lemma for_tasks_invariant (P : state -> Prop) (R : state -> exn -> Prop) w :
  (forall st i task st', tasks st !! i = Some task -> P st ->
     visit w task st = (st', None) -> P st') ->
  (forall st i task st' e, tasks st !! i = Some task -> P st ->
     visit w task st = (st', Some e) -> R st' e) ->
  forall fuel i st, P st ->
    match for_tasks w fuel i st with
    | Done st' => P st'
    | Raised st' e => R st' e
    | OutOfFuel => True
    end.
Proof.
  intros Hok Herr. induction fuel as [|fuel IH]; intros i st HP; cbn.
  - destruct (tasks st !! i); auto.
  - destruct (tasks st !! i) as [task|] eqn:Hi; [|exact HP].
    destruct (visit w task st) as [st' [e|]] eqn:Hv.
    + eapply Herr; eauto.
    + apply IH. eapply Hok; eauto.
Qed.

Lemma _manage_invariant (P : state -> Prop) (R : state -> exn -> Prop) w :
  (forall st i task st', tasks st !! i = Some task -> P st ->
     visit w task st = (st', None) -> P st') ->
  (forall st i task st' e, tasks st !! i = Some task -> P st ->
     visit w task st = (st', Some e) -> R st' e) ->
  (forall st, P st -> P (tick st)) ->
  forall passes st, P st ->
    match _manage w passes st with
    | Done st' => P st'
    | Raised st' e => R st' e
    | OutOfFuel => True
    end.
Proof.
  intros Hok Herr Htick. induction passes as [|n IH]; intros st HP; cbn; [exact HP|].
  unfold scan.
  pose proof (for_tasks_invariant P R w Hok Herr (length (tasks st)) 0 st HP) as H.
  destruct (for_tasks w (length (tasks st)) 0 st) as [st'|st' e|]; cbn;
    [apply IH, Htick, H | exact H | exact I].
Qed.

(** The store never grows during a visit, so a scan given one unit of fuel
    per stored task always finishes. *)
Lemma visit_length w task st st' err i :
  tasks st !! i = Some task -> visit w task st = (st', err) ->
  length (tasks st') <= length (tasks st).
Proof.
  intros Hi Hv. apply visit_cases in Hv; [|eapply lookup_ids; eauto].
  destruct Hv as [[_ ->]|[_ [(_ & c & l & Hl & ->)|(c & e & _ & ->)]]]; cbn; auto.
  apply list_remove_length in Hl. lia.
Qed.

Lemma for_tasks_fuel w fuel i st :
  length (tasks st) <= fuel + i -> for_tasks w fuel i st <> OutOfFuel.
Proof.
  induction fuel as [|fuel IH] in i, st |- *; intros Hlen; cbn.
  - rewrite lookup_ge_None_2; [discriminate | lia].
  - destruct (tasks st !! i) as [task|] eqn:Hi; [|discriminate].
    destruct (visit w task st) as [st' [e|]] eqn:Hv; [discriminate|].
    apply IH. pose proof (visit_length _ _ _ _ _ _ Hi Hv). lia.
Qed.

Lemma scan_total w st : scan w st <> OutOfFuel.
Proof.
  unfold scan. pose proof (for_tasks_fuel w (length (tasks st)) 0 st) as H.
  destruct (for_tasks w _ 0 st); [discriminate.. | apply H; lia].
Qed.

Lemma _manage_total w passes st : _manage w passes st <> OutOfFuel.
Proof.
  induction passes as [|n IH] in st |- *; cbn; [discriminate|].
  pose proof (scan_total w st). destruct (scan w st); [apply IH | discriminate | congruence].
Qed.

(** Once a pass has raised, more turns of the loop change nothing. *)
Lemma _manage_Raised_more w n k st st' e :
  _manage w n st = Raised st' e -> _manage w (n + k) st = Raised st' e.
Proof.
  induction n as [|n IH] in st |- *; cbn; [discriminate|].
  destruct (scan w st); auto.
Qed.

(** No dispatch is made on a clock reading before the deadline. *)
Lemma no_early_dispatch w passes st :
  Forall (fun d => (settings_time (d_task d) <= d_at d)%Q) (sent st) ->
  match _manage w passes st with
  | Done st' | Raised st' _ =>
      Forall (fun d => (settings_time (d_task d) <= d_at d)%Q) (sent st')
  | OutOfFuel => False
  end.
Proof.
  intros H.
  pose proof (_manage_total w passes st) as Htot.
  pose proof (_manage_invariant
    (fun s => Forall (fun d => (settings_time (d_task d) <= d_at d)%Q) (sent s))
    (fun s _ => Forall (fun d => (settings_time (d_task d) <= d_at d)%Q) (sent s)) w) as Hinv.
  assert (Hstep : forall st i task st' err, tasks st !! i = Some task ->
            Forall (fun d => (settings_time (d_task d) <= d_at d)%Q) (sent st) ->
            visit w task st = (st', err) ->
            Forall (fun d => (settings_time (d_task d) <= d_at d)%Q) (sent st')).
  { intros s i task s' err Hi HP Hv.
    apply visit_cases in Hv; [|eapply lookup_ids; eauto].
    destruct Hv as [[_ ->]|[Hdue [(_ & c & l & _ & ->)|(c & e & _ & ->)]]]; cbn; auto;
      apply Forall_app; (split; [exact HP|]); apply Forall_singleton; cbn;
      apply Qle_bool_iff; exact Hdue. }
  specialize (Hinv (fun s i t s' => Hstep s i t s' None)
                   (fun s i t s' e => Hstep s i t s' (Some e))
                   (fun s HP => HP) passes st H).
  destruct (_manage w passes st); auto.
Qed.

(** A loop that is still running has seen no dispatch raise; one that
    ended did so on the exception of its last dispatch. *)
Lemma _manage_errors w passes st :
  Forall (fun d => d_error d = None) (sent st) ->
  match _manage w passes st with
  | Done st' => Forall (fun d => d_error d = None) (sent st')
  | Raised st' e =>
      exists d, last (sent st') = Some d /\ d_error d = Some e /\ d_task d ∈ tasks st'
  | OutOfFuel => False
  end.
Proof.
  intros H.
  pose proof (_manage_total w passes st) as Htot.
  pose proof (_manage_invariant
    (fun s => Forall (fun d => d_error d = None) (sent s))
    (fun s e => exists d, last (sent s) = Some d /\ d_error d = Some e /\
                          d_task d ∈ tasks s) w) as Hinv.
  lapply Hinv; [clear Hinv; intros Hinv; lapply Hinv; [clear Hinv; intros Hinv|]|].
  - specialize (Hinv (fun s HP => HP) passes st H).
    destruct (_manage w passes st); auto.
  - intros s i task s' e Hi HP Hv.
    apply visit_cases in Hv; [|eapply lookup_ids; eauto].
    destruct Hv as [[? _]|[_ [(? & _)|(c & e' & [= <-] & ->)]]]; try discriminate.
    eexists. cbn. rewrite last_snoc. repeat split.
    eapply list_elem_of_lookup_2; eauto.
  - intros s i task s' Hi HP Hv.
    apply visit_cases in Hv; [|eapply lookup_ids; eauto].
    destruct Hv as [[_ ->]|[_ [(_ & c & l & _ & ->)|(c & e' & ? & _)]]];
      try discriminate; cbn; auto.
    apply Forall_app. split; [exact HP|]. apply Forall_singleton. reflexivity.
Qed.

End Scheduler.

(** ** Claims about the store and the scheduler *)

(** C1, counterexample. With the network down the request for a due task
    is made while the task is in the store and the task is still there
    when the loop has ended; a scheduler started again picks the same task
    object and makes the request a second time. *)
Lemma same_task_dispatched_twice :
  exists st1 st2 e,
    _manage offline 1 (with_tasks [http_task 1]) = Raised st1 e /\
    sent_ids st1 = [1%nat] /\ ids (tasks st1) = [1%nat] /\
    _manage offline 1 st1 = Raised st2 e /\
    sent_ids st2 = [1%nat; 1%nat].
Proof.
  do 3 eexists. split; [vm_compute; reflexivity|].
  split; [reflexivity|]. split; [reflexivity|].
  split; [vm_compute; reflexivity | reflexivity].
Qed.

(** C1, amended. In one run of the scheduler loop over a store that holds
    every task object once, no task is dispatched twice: a task whose send
    returns is removed from the store right after the send (not before
    it), so while the loop runs the dispatched tasks and the stored tasks
    are disjoint; the run always produces an outcome. *)
Theorem dispatched_at_most_once (w : world) (passes : nat) (st : state) :
  NoDup (sent_ids st ++ ids (tasks st)) ->
  match _manage w passes st with
  | Done st' => NoDup (sent_ids st' ++ ids (tasks st'))
  | Raised st' e => NoDup (sent_ids st')
  | OutOfFuel => False
  end.
Proof.
  intros H.
  pose proof (_manage_total w passes st) as Htot.
  pose proof (_manage_invariant
    (fun s => NoDup (sent_ids s ++ ids (tasks s)))
    (fun s _ => NoDup (sent_ids s)) w) as Hinv.
  lapply Hinv; [clear Hinv; intros Hinv; lapply Hinv; [clear Hinv; intros Hinv|]|].
  - specialize (Hinv (fun s HP => HP) passes st H).
    destruct (_manage w passes st); auto.
  - intros s i task s' e Hi HP Hv.
    apply visit_cases in Hv; [|eapply lookup_ids; eauto].
    destruct Hv as [[? _]|[_ [(? & _)|(c & e' & _ & ->)]]]; try discriminate.
    unfold sent_ids. cbn. rewrite fmap_app. cbn.
    apply NoDup_app. apply NoDup_app in HP as (Hs & Hdisj & _).
    split; [exact Hs|]. split; [|apply NoDup_singleton].
    intros x Hx ->%list_elem_of_singleton. eapply Hdisj; [exact Hx|].
    eapply lookup_ids; eauto.
  - intros s i task s' Hi HP Hv.
    apply visit_cases in Hv; [|eapply lookup_ids; eauto].
    destruct Hv as [[_ ->]|[_ [(_ & c & l & Hl & ->)|(c & e' & ? & _)]]];
      try discriminate; [exact HP|].
    unfold sent_ids. cbn. rewrite fmap_app. cbn.
    eapply list_remove_NoDup; eauto.
Qed.

Lemma dispatched_at_most_once_witness :
  NoDup (sent_ids (with_tasks [http_task 1; socket_task 2; http_task 3]) ++
         ids (tasks (with_tasks [http_task 1; socket_task 2; http_task 3]))) /\
  match _manage calm 2 (with_tasks [http_task 1; socket_task 2; http_task 3]) with
  | Done st' => NoDup (sent_ids st' ++ ids (tasks st'))
  | Raised st' e => NoDup (sent_ids st')
  | OutOfFuel => False
  end.
Proof.
  assert (H : NoDup (sent_ids (with_tasks [http_task 1; socket_task 2; http_task 3]) ++
                     ids (tasks (with_tasks [http_task 1; socket_task 2; http_task 3]))))
    by compute_done.
  split; [exact H|].
  exact (dispatched_at_most_once calm 2 _ H).
Defined.

(** C2, counterexample. The specification's scenario: a due socket task
    for [127.0.0.1:9] with no listener. The refused connection ends the
    scan and the task is still in the store. *)
Lemma refused_task_not_removed :
  exists st' d,
    scan no_listener (with_tasks [socket_task 1]) =
      Raised st' (NetError "ConnectionRefusedError") /\
    sent st' = [d] /\ d_calls d = [SockConnect "127.0.0.1" 9] /\
    ids (tasks st') = [1%nat].
Proof.
  do 2 eexists. split; [vm_compute; reflexivity|]. repeat split.
Qed.

(** C2, amended. A due task whose dispatch raises is not removed: when the
    loop ends on an exception, that exception is the one of the last
    dispatch made, and the task of that dispatch is still in the store. *)
Theorem failed_dispatch_stays (w : world) (passes : nat) (st st' : state) (e : exn) :
  _manage w passes st = Raised st' e ->
  exists d, last (sent st') = Some d /\ d_error d = Some e /\ d_task d ∈ tasks st'.
Proof.
  intros H.
  pose proof (_manage_invariant (fun _ => True)
    (fun s e => exists d, last (sent s) = Some d /\ d_error d = Some e /\
                          d_task d ∈ tasks s) w) as Hinv.
  lapply Hinv; [clear Hinv; intros Hinv; lapply Hinv; [clear Hinv; intros Hinv|]|];
    [| |auto].
  - specialize (Hinv (fun _ _ => I) passes st I). rewrite H in Hinv. exact Hinv.
  - intros s i task s' e' Hi _ Hv.
    apply visit_cases in Hv; [|eapply lookup_ids; eauto].
    destruct Hv as [[? _]|[_ [(? & _)|(c & e'' & [= <-] & ->)]]]; try discriminate.
    eexists. cbn. rewrite last_snoc. repeat split.
    eapply list_elem_of_lookup_2; eauto.
Qed.

Lemma failed_dispatch_stays_witness :
  let st' := {| tasks := [socket_task 1]; next_oid := 0; ticks := 1;
                sent := [mkDispatch (socket_task 1) 0 [SockConnect "127.0.0.1" 9]
                           (Some (NetError "ConnectionRefusedError"))];
                log := [] |} in
  _manage no_listener 3 (with_tasks [socket_task 1]) =
    Raised st' (NetError "ConnectionRefusedError") /\
  exists d, last (sent st') = Some d /\
            d_error d = Some (NetError "ConnectionRefusedError") /\
            d_task d ∈ tasks st'.
Proof.
  intros st'.
  assert (H : _manage no_listener 3 (with_tasks [socket_task 1]) =
              Raised st' (NetError "ConnectionRefusedError"))
    by (vm_compute; reflexivity).
  split; [exact H|].
  exact (failed_dispatch_stays no_listener 3 _ st' _ H).
Defined.

(** C3, counterexample. A refused connection for the first task ends the
    loop: however many turns it is given, the loop has stopped on the
    exception, the failed task is still stored, and the HTTP task behind
    it, due and deliverable, is never dispatched. *)
Lemma refused_connection_ends_loop :
  exists st',
    _manage no_listener 5 (with_tasks [socket_task 1; http_task 2]) =
      Raised st' (NetError "ConnectionRefusedError") /\
    sent_ids st' = [1%nat] /\ ids (tasks st') = [1%nat; 2%nat] /\ ticks st' = 1%nat.
Proof.
  eexists. split; [vm_compute; reflexivity|]. repeat split.
Qed.

(** C3, amended. Nothing in the scheduler catches the exception of a
    dispatch: a loop that is still running has seen no dispatch raise, and
    a loop in which one raised has ended with that exception, for good -
    more turns change nothing. *)
Theorem dispatch_error_ends_loop (w : world) (passes : nat) (st : state) :
  Forall (fun d => d_error d = None) (sent st) ->
  match _manage w passes st with
  | Done st' => Forall (fun d => d_error d = None) (sent st')
  | Raised st' e =>
      (exists d, last (sent st') = Some d /\ d_error d = Some e) /\
      forall k, _manage w (passes + k) st = Raised st' e
  | OutOfFuel => False
  end.
Proof.
  intros H. pose proof (_manage_errors w passes st H) as He.
  destruct (_manage w passes st) as [st'|st' e|] eqn:Hm; auto.
  destruct He as (d & Hl & Hd & _). split; [eauto|].
  intros k. apply _manage_Raised_more. exact Hm.
Qed.

Lemma dispatch_error_ends_loop_witness :
  Forall (fun d => d_error d = None) (sent (with_tasks [socket_task 1; http_task 2])) /\
  match _manage no_listener 1 (with_tasks [socket_task 1; http_task 2]) with
  | Done st' => Forall (fun d => d_error d = None) (sent st')
  | Raised st' e =>
      (exists d, last (sent st') = Some d /\ d_error d = Some e) /\
      forall k, _manage no_listener (1 + k) (with_tasks [socket_task 1; http_task 2])
                = Raised st' e
  | OutOfFuel => False
  end.
Proof.
  assert (H : Forall (fun d => d_error d = None)
                (sent (with_tasks [socket_task 1; http_task 2])))
    by (simpl; apply Forall_nil_2).
  split; [exact H|].
  exact (dispatch_error_ends_loop no_listener 1 _ H).
Defined.

(** C6, counterexample. The first [remove_task] returns [None], the second
    raises [ValueError]. *)
Lemma second_remove_raises :
  remove_task (http_task 1) (with_tasks [http_task 1]) = (with_tasks [], Ok tt) /\
  remove_task (http_task 1) (with_tasks []) = (with_tasks [], Raise ValueError).
Proof. split; reflexivity. Qed.

(** C6, amended. For a task the store holds once, the first [remove_task]
    returns normally (with [None]) and takes the task out; the second one
    raises [ValueError] and leaves the store as it is. *)
Theorem remove_task_twice (task : Task) (st : state) :
  task_id task ∈ ids (tasks st) ->
  NoDup (ids (tasks st)) ->
  exists st1,
    remove_task task st = (st1, Ok tt) /\
    (task_id task ∉ ids (tasks st1)) /\
    length (tasks st) = S (length (tasks st1)) /\
    remove_task task st1 = (st1, Raise ValueError).
Proof.
  intros Hin Hnd. unfold remove_task at 1.
  destruct (list_remove_present _ _ Hin) as [l Hl]. rewrite Hl.
  exists (set_tasks l st).
  assert (Hout : task_id task ∉ ids l).
  { pose proof (list_remove_NoDup [] _ _ _ Hl Hnd) as H. cbn in H.
    apply NoDup_cons in H as [H _]. exact H. }
  repeat split; cbn; auto.
  - eapply list_remove_length; eauto.
  - unfold remove_task. cbn. apply list_remove_None in Hout. rewrite Hout. reflexivity.
Qed.

Lemma remove_task_twice_witness :
  task_id (http_task 2) ∈ ids (tasks (with_tasks [http_task 1; http_task 2])) /\
  NoDup (ids (tasks (with_tasks [http_task 1; http_task 2]))) /\
  exists st1,
    remove_task (http_task 2) (with_tasks [http_task 1; http_task 2]) = (st1, Ok tt) /\
    (task_id (http_task 2) ∉ ids (tasks st1)) /\
    length (tasks (with_tasks [http_task 1; http_task 2])) = S (length (tasks st1)) /\
    remove_task (http_task 2) st1 = (st1, Raise ValueError).
Proof.
  assert (H1 : task_id (http_task 2) ∈ ids (tasks (with_tasks [http_task 1; http_task 2])))
    by compute_done.
  assert (H2 : NoDup (ids (tasks (with_tasks [http_task 1; http_task 2]))))
    by compute_done.
  split; [exact H1|]. split; [exact H2|].
  exact (remove_task_twice (http_task 2) _ H1 H2).
Defined.

(** C8. Four HTTP tasks, all due when the loop starts, in a world where
    every request returns at once. Removing the task just sent shifts its
    right neighbour under the iterator's index, so the first scan sends
    tasks 1 and 3 only, the second sends task 2, and task 4 waits in the
    store through two sleeps until the third scan. *)
Theorem due_neighbour_skipped :
  Forall (fun t => (settings_time t <= clock calm 0)%Q)
         [http_task 1; http_task 2; http_task 3; http_task 4] /\
  (exists st1, _manage calm 1 (with_tasks [http_task 1; http_task 2; http_task 3; http_task 4])
                 = Done st1 /\
               sent_ids st1 = [1; 3]%nat /\ ids (tasks st1) = [2; 4]%nat) /\
  (exists st2, _manage calm 2 (with_tasks [http_task 1; http_task 2; http_task 3; http_task 4])
                 = Done st2 /\
               sent_ids st2 = [1; 3; 2]%nat /\ ids (tasks st2) = [4]%nat) /\
  (exists st3, _manage calm 3 (with_tasks [http_task 1; http_task 2; http_task 3; http_task 4])
                 = Done st3 /\
               sent_ids st3 = [1; 3; 2; 4]%nat /\ ids (tasks st3) = []).
Proof.
  split.
  - repeat (apply Forall_cons; split; [vm_compute; discriminate|]). apply Forall_nil_2.
  - repeat split; eexists; (split; [vm_compute; reflexivity|]); split; reflexivity.
Qed.

(** The first scenario of the specification with a delay of 30 seconds
    instead of 0: the task is accepted, stays in the store while the clock
    reads less than the deadline, then goes out as a bare GET and the
    store is empty again. *)
Lemma delayed_ping_fires :
  let st0 := (add_task calm (submission "ping" "http" "http://example.test/x" (JNum 30))
                initial).1 in
  ids (tasks st0) = [0%nat] /\
  (exists st, _manage calm 15 st0 = Done st /\ sent st = [] /\ ids (tasks st) = [0%nat]) /\
  (exists st d, _manage calm 16 st0 = Done st /\ sent st = [d] /\ tasks st = [] /\
                d_at d = 31%Q /\
                d_calls d = [HttpGet (JStr "http://example.test/x") None] /\
                d_error d = None).
Proof.
  intros st0. split; [vm_compute; reflexivity|]. split.
  - eexists. split; [vm_compute; reflexivity|]. split; reflexivity.
  - do 2 eexists. split; [vm_compute; reflexivity|]. repeat split.
Qed.

(** * The singleton guard and the shared task list *)

Module ObjectsFacts.
Import Objects.

Example mangle_tasks : mangle "__tasks" = "_TaskManager__tasks".
Proof. reflexivity. Qed.

Example mangle_instance : mangle "__instance" = "_TaskManager__instance".
Proof. reflexivity. Qed.

Example mangle_new : mangle "__new__" = "__new__".
Proof. reflexivity. Qed.

Lemma wf_start : wf start.
Proof.
  split; try reflexivity.
  - intros r d H. cbn in H. rewrite lookup_empty in H. discriminate.
  - cbn. eauto.
  - intros r [d H]. cbn in H. rewrite lookup_empty in H. discriminate.
Qed.

(** On a well-formed heap the guard of [__new__] is open: the call makes a
    new object, stores it under the mangled name and returns it. *)
Lemma __new__wf h :
  wf h ->
  __new__ h =
    (setattr_cls "_TaskManager__instance" (VObj (next_ref h)) (object_new h).1,
     Ok (VObj (next_ref h))).
Proof.
  intros Hwf. unfold __new__, hasattr_cls.
  rewrite (wf_no_instance h Hwf).
  rewrite bool_decide_eq_false_2 by (intros [? ?]; discriminate).
  cbn. change (mangle "__instance") with "_TaskManager__instance".
  rewrite lookup_insert_eq. reflexivity.
Qed.

Lemma self_tasks_wf h self :
  wf h -> is_Some (inst_dicts h !! self) -> self_tasks h self = Ok 0%nat.
Proof.
  intros Hwf [d Hd]. unfold self_tasks, getattr.
  change (mangle "__tasks") with "_TaskManager__tasks".
  rewrite Hd. cbn. rewrite (wf_inst h Hwf _ _ Hd), lookup_empty.
  rewrite (wf_tasks h Hwf). reflexivity.
Qed.

Lemma self_tasks_unknown h self :
  inst_dicts h !! self = None -> self_tasks h self = Raise AttributeError.
Proof. intros H. unfold self_tasks, getattr. rewrite H. reflexivity. Qed.

Lemma wf_set_list h l : wf h -> wf (set_list 0 l h).
Proof.
  intros [? ? ? ? ?]. split; cbn; auto.
  rewrite lookup_insert_eq. eauto.
Qed.

Lemma wf_step h o : wf h -> wf (step h o).
Proof.
  intros Hwf. destruct o as [|self task|self task]; cbn.
  - rewrite (__new__wf h Hwf). cbn. destruct Hwf as [Hn Ht Hi Hl Hf].
    split; cbn.
    + rewrite lookup_insert_ne by discriminate. exact Hn.
    + rewrite lookup_insert_ne by discriminate. exact Ht.
    + intros r d. rewrite lookup_insert. case_decide; [congruence | apply Hi].
    + exact Hl.
    + intros r. rewrite lookup_insert. case_decide; [lia|].
      intros Hr. apply Hf in Hr. lia.
  - unfold append_task. destruct (inst_dicts h !! self) as [d|] eqn:Hd.
    + rewrite self_tasks_wf by eauto. destruct (wf_list h Hwf) as [l ->].
      cbn. apply wf_set_list, Hwf.
    + rewrite self_tasks_unknown by exact Hd. exact Hwf.
  - unfold remove_task. destruct (inst_dicts h !! self) as [d|] eqn:Hd.
    + rewrite self_tasks_wf by eauto. destruct (wf_list h Hwf) as [l ->].
      destruct (list_remove task l); cbn; [apply wf_set_list|]; exact Hwf.
    + rewrite self_tasks_unknown by exact Hd. exact Hwf.
Qed.

Lemma wf_run ops : wf (run ops).
Proof.
  unfold run. induction ops as [|o ops IH] using rev_ind; [exact wf_start|].
  rewrite foldl_snoc. apply wf_step, IH.
Qed.

(** C10. After any sequence of constructor calls and method calls, first,
    the constructor returns an object that did not exist before, stored
    under the mangled name while the name the guard tests stays unset; and
    second, any two instances read the same list of tasks, a task appended
    through one is at the end of the list the other reads, and the other
    can remove it. *)
Theorem fresh_objects_shared_tasks (ops : list op) (a b : nat) (task : Task) :
  is_Some (inst_dicts (run ops) !! a) ->
  is_Some (inst_dicts (run ops) !! b) ->
  let h := run ops in
  (exists h', __new__ h = (h', Ok (VObj (next_ref h))) /\
              inst_dicts h !! next_ref h = None /\
              inst_dicts h' !! next_ref h = Some ∅ /\
              hasattr_cls h' "instance" = false /\
              class_dict h' !! mangle "__instance" = Some (VObj (next_ref h))) /\
  (exists l h1 h2 l',
     get_tasks h a = Ok l /\ get_tasks h b = Ok l /\
     append_task h a task = (h1, Ok tt) /\
     get_tasks h1 b = Ok (l ++ [task]) /\
     remove_task h1 b task = (h2, Ok tt) /\
     list_remove task (l ++ [task]) = Some l' /\
     get_tasks h2 a = Ok l' /\ get_tasks h2 b = Ok l').
Proof.
  intros Ha Hb h. pose proof (wf_run ops) as Hwf. fold h in Hwf, Ha, Hb.
  split.
  - eexists. split; [apply __new__wf, Hwf|]. cbn.
    split; [|split; [|split]].
    + destruct (inst_dicts h !! next_ref h) eqn:H; [|reflexivity].
      pose proof (wf_fresh h Hwf (next_ref h) (mk_is_Some _ _ H)). lia.
    + apply lookup_insert_eq.
    + unfold hasattr_cls. cbn. rewrite lookup_insert_ne by discriminate.
      rewrite (wf_no_instance h Hwf).
      apply bool_decide_eq_false_2. intros [? ?]; discriminate.
    + change (mangle "__instance") with "_TaskManager__instance".
      apply lookup_insert_eq.
  - destruct (wf_list h Hwf) as [l Hl].
    assert (Hin : task_id task ∈ ids (l ++ [task])).
    { unfold ids. rewrite fmap_app. apply elem_of_app. right. cbn.
      apply list_elem_of_singleton. reflexivity. }
    destruct (list_remove_present _ _ Hin) as [l' Hl'].
    pose proof (wf_set_list h (l ++ [task]) Hwf) as Hwf1.
    pose proof (wf_set_list (set_list 0 (l ++ [task]) h) l' Hwf1) as Hwf2.
    exists l, (set_list 0 (l ++ [task]) h), (set_list 0 l' (set_list 0 (l ++ [task]) h)), l'.
    unfold get_tasks, append_task, remove_task.
    rewrite !self_tasks_wf by (cbn; auto). rewrite Hl. cbn.
    rewrite !lookup_insert_eq. cbn. rewrite Hl'.
    repeat split.
Qed.

Lemma fresh_objects_shared_tasks_witness :
  is_Some (inst_dicts (run [New; New; Append 0 (http_task 7)]) !! 0%nat) /\
  is_Some (inst_dicts (run [New; New; Append 0 (http_task 7)]) !! 1%nat) /\
  exists l h1 h2 l',
    get_tasks (run [New; New; Append 0 (http_task 7)]) 0 = Ok l /\
    get_tasks (run [New; New; Append 0 (http_task 7)]) 1 = Ok l /\
    append_task (run [New; New; Append 0 (http_task 7)]) 0 (http_task 8) = (h1, Ok tt) /\
    get_tasks h1 1 = Ok (l ++ [http_task 8]) /\
    remove_task h1 1 (http_task 8) = (h2, Ok tt) /\
    list_remove (http_task 8) (l ++ [http_task 8]) = Some l' /\
    get_tasks h2 0 = Ok l' /\ get_tasks h2 1 = Ok l'.
Proof.
  assert (H0 : is_Some (inst_dicts (run [New; New; Append 0 (http_task 7)]) !! 0%nat))
    by (vm_compute; eauto).
  assert (H1 : is_Some (inst_dicts (run [New; New; Append 0 (http_task 7)]) !! 1%nat))
    by (vm_compute; eauto).
  split; [exact H0|]. split; [exact H1|].
  exact (proj2 (fresh_objects_shared_tasks _ 0 1 (http_task 8) H0 H1)).
Defined.

End ObjectsFacts.

(** * More about the dispatcher *)

Section Dispatcher.

Implicit Types (w : world) (task : Task) (s h p r : string).

Lemma sapp_nil_r s : s +:+ "" = s.
Proof. induction s as [|c s IH]; [reflexivity|]. change (String c (s +:+ "") = String c s). congruence. Qed.

Lemma rev_app_append s1 s2 s3 :
  String.rev_app s1 s2 +:+ s3 = String.rev_app s1 (s2 +:+ s3).
Proof.
  induction s1 as [|c s1 IH] in s2 |- *; [reflexivity|].
  change (String.rev_app s1 (String c s2) +:+ s3 = String.rev_app s1 (String c s2 +:+ s3)).
  apply IH.
Qed.

Lemma rev_cons_append c acc s :
  String.rev (String c acc) +:+ s = String.rev acc +:+ String c s.
Proof.
  unfold String.rev. change (String.rev_app (String c acc) "") with (String.rev_app acc (String c "")).
  rewrite !rev_app_append. reflexivity.
Qed.

Lemma split_colon_aux_nil acc : split_colon_aux acc "" = [String.rev acc].
Proof. reflexivity. Qed.

Lemma split_colon_aux_cons acc c s :
  split_colon_aux acc (String c s) =
    if Ascii.eqb c ":"%char then String.rev acc :: split_colon_aux EmptyString s
    else split_colon_aux (String c acc) s.
Proof. reflexivity. Qed.

(** A part without [:] followed by [:] is the first field. *)
Lemma split_colon_aux_field acc h r :
  no_colon h = true ->
  split_colon_aux acc (h +:+ String ":" r) =
    (String.rev acc +:+ h) :: split_colon r.
Proof.
  induction h as [|c h IH] in acc |- *.
  - intros _. change ("" +:+ String ":" r) with (String ":" r).
    rewrite split_colon_aux_cons, sapp_nil_r. reflexivity.
  - change (no_colon (String c h)) with (negb (Ascii.eqb c ":") && no_colon h).
    change (String c h +:+ String ":" r) with (String c (h +:+ String ":" r)).
    rewrite split_colon_aux_cons.
    destruct (Ascii.eqb c ":") eqn:Hc; [discriminate|].
    intros Hh. rewrite IH by exact Hh. rewrite rev_cons_append. reflexivity.
Qed.

Lemma split_colon_aux_last acc h :
  no_colon h = true -> split_colon_aux acc h = [String.rev acc +:+ h].
Proof.
  induction h as [|c h IH] in acc |- *.
  - intros _. rewrite split_colon_aux_nil, sapp_nil_r. reflexivity.
  - change (no_colon (String c h)) with (negb (Ascii.eqb c ":") && no_colon h).
    rewrite split_colon_aux_cons.
    destruct (Ascii.eqb c ":") eqn:Hc; [discriminate|].
    intros Hh. rewrite IH by exact Hh. rewrite rev_cons_append. reflexivity.
Qed.

Lemma split_colon_field h r :
  no_colon h = true -> split_colon (h +:+ String ":" r) = h :: split_colon r.
Proof. intros H. unfold split_colon. rewrite split_colon_aux_field by exact H. reflexivity. Qed.

Lemma split_colon_last h :
  no_colon h = true -> split_colon h = [h].
Proof. intros H. unfold split_colon. rewrite split_colon_aux_last by exact H. reflexivity. Qed.

(** X1. The socket dispatch connects to the text before the first colon
    of the link as host, and to [int] of the text between the first and the
    second colon as port; whatever follows a second colon is ignored. The
    task's data is sent only once the connection is made. *)
Theorem socket_target w (k : nat) task h p r (n : Z) :
  address_link task = JStr (h +:+ String ":" (p +:+ r)) ->
  no_colon h = true -> no_colon p = true ->
  (r = "" \/ exists r', r = String ":" r') ->
  py_int w p = Some n ->
  socket_request w k task =
    match net w k (SockConnect h n) with
    | Some e => ([SockConnect h n], Some e)
    | None => ([SockConnect h n; SockSend (settings_data task)],
               net w k (SockSend (settings_data task)))
    end.
Proof.
  intros Hlink Hh Hp Hr Hn. unfold socket_request. rewrite Hlink.
  rewrite split_colon_field by exact Hh.
  assert (Hs : exists l, split_colon (p +:+ r) = p :: l).
  { destruct Hr as [->|[r' ->]].
    - rewrite sapp_nil_r, split_colon_last by exact Hp. eauto.
    - rewrite split_colon_field by exact Hp. eauto. }
  destruct Hs as [l ->]. cbn. rewrite Hn. reflexivity.
Qed.

Lemma socket_target_witness :
  socket_request calm 0 (socket_task 1) =
    match net calm 0 (SockConnect "127.0.0.1" 9) with
    | Some e => ([SockConnect "127.0.0.1" 9], Some e)
    | None => ([SockConnect "127.0.0.1" 9; SockSend (settings_data (socket_task 1))],
               net calm 0 (SockSend (settings_data (socket_task 1))))
    end.
Proof.
  apply (socket_target calm 0 (socket_task 1) "127.0.0.1" "9" "" 9);
    [reflexivity | reflexivity | reflexivity | left; reflexivity | reflexivity].
Defined.

(** X2. A socket link without a colon never reaches the network: the
    dispatch raises [IndexError] when it reads the port, in every world. *)
Theorem socket_link_without_colon w (k : nat) task s :
  address_link task = JStr s -> no_colon s = true ->
  socket_request w k task = ([], Some IndexError).
Proof.
  intros Hlink Hs. unfold socket_request. rewrite Hlink.
  rewrite split_colon_last by exact Hs. reflexivity.
Qed.

Lemma socket_link_without_colon_witness :
  let task := {| task_id := 1; title := JStr "b"; address_type := JStr "socket";
                 address_link := JStr "localhost"; settings_time := 0;
                 settings_data := JObj ∅ |} in
  socket_request offline 3 task = ([], Some IndexError).
Proof.
  intros task.
  apply (socket_link_without_colon offline 3 task "localhost"); reflexivity.
Defined.

(** X3. When the data of an HTTP task has [headers] equal to ["auto"], the
    request carries exactly one header, [User-Agent], whose value is an
    entry of the table [user_agents]; the data, still holding its
    [headers] entry, is passed as the body. *)
Theorem auto_headers w (k : nat) task (d : gmap string json) :
  settings_data task = JObj d ->
  d !! "headers" = Some (JStr "auto") ->
  exists ua,
    ua ∈ user_agents /\
    let c := HttpGet (address_link task)
               (Some (JObj d, JObj {[ "User-Agent" := JStr ua ]})) in
    http_request w k task = ([c], net w k c).
Proof.
  intros Hd Hh. unfold http_request. rewrite Hd.
  assert (Ht : truthy (JObj d) = true).
  { cbn. rewrite bool_decide_eq_false_2; [reflexivity|].
    intros ->. rewrite lookup_empty in Hh. discriminate. }
  rewrite Ht. cbn. unfold dict_get_default. rewrite Hh. cbn.
  unfold _get_random_user_agent.
  set (i := (random_choice w k `mod` length user_agents)%nat).
  assert (Hi : (i < length user_agents)%nat)
    by (apply Nat.mod_upper_bound; discriminate).
  destruct (lookup_lt_is_Some_2 _ _ Hi) as [ua Hua].
  exists ua. rewrite Hua. cbn. split; [|reflexivity].
  eapply list_elem_of_lookup_2; eauto.
Qed.

Lemma auto_headers_witness :
  let d : gmap string json := {[ "headers" := JStr "auto" ]} in
  let task := {| task_id := 1; title := JStr "a"; address_type := JStr "http";
                 address_link := JStr "http://example.test/x"; settings_time := 0;
                 settings_data := JObj d |} in
  exists ua,
    ua ∈ user_agents /\
    let c := HttpGet (address_link task)
               (Some (JObj d, JObj {[ "User-Agent" := JStr ua ]})) in
    http_request calm 0 task = ([c], net calm 0 c).
Proof.
  intros d task.
  exact (auto_headers calm 0 task d eq_refl eq_refl).
Defined.

(** X4. The validator does not look at [settings.data], but the HTTP
    dispatch needs a dict: for data that is truthy and not a dict (a
    non-empty string or list, a number) the visit of the due task raises
    [AttributeError] before any request is made, and the task stays in the
    store. *)
Theorem http_data_not_a_dict w task (st : state) :
  py_eq_str (address_type task) "http" = true ->
  Qle_bool (settings_time task) (clock w (ticks st)) = true ->
  truthy (settings_data task) = true ->
  is_dict (settings_data task) = false ->
  visit w task st =
    (record_dispatch (mkDispatch task (clock w (ticks st)) [] (Some AttributeError))
       (tick st),
     Some AttributeError).
Proof.
  intros Hty Hdue Ht Hd. unfold visit. rewrite Hdue, Hty. cbn.
  unfold __send_http, http_request. rewrite Ht.
  destruct (settings_data task); try discriminate; reflexivity.
Qed.

Lemma http_data_not_a_dict_witness :
  let task := {| task_id := 1; title := JStr "a"; address_type := JStr "http";
                 address_link := JStr "http://example.test/x"; settings_time := 0;
                 settings_data := JStr "hello" |} in
  visit calm task (with_tasks [task]) =
    (record_dispatch (mkDispatch task (clock calm 0) [] (Some AttributeError))
       (tick (with_tasks [task])),
     Some AttributeError).
Proof.
  intros task.
  apply (http_data_not_a_dict calm task (with_tasks [task])); reflexivity.
Defined.

End Dispatcher.

(** * More about the scheduler *)

Section SchedulerMore.

Implicit Types (w : world) (st : state) (task : Task) (l kept rest : list Task).

(** A task ready in every circumstance: due on every clock reading, of a
    type the loop knows, and its request never raises. *)
Local Abbreviation ready w :=
  (fun t : Task => forall k, eligible w k t = true /\ (request w k t).2 = None).

Lemma visit_not_eligible w task st :
  eligible w (ticks st) task = false -> visit w task st = (tick st, None).
Proof.
  unfold eligible, visit.
  destruct (Qle_bool _ _); cbn; [|reflexivity].
  destruct (py_eq_str (address_type task) "http"); cbn; [discriminate|].
  destruct (py_eq_str (address_type task) "socket"); [discriminate | reflexivity].
Qed.

Lemma visit_eligible w task st :
  eligible w (ticks st) task = true ->
  visit w task st =
    let '(st', calls, err) :=
      send_then_remove (request w (S (ticks st)) task) task (tick st) in
    (record_dispatch (mkDispatch task (clock w (ticks st)) calls err) st', err).
Proof.
  unfold eligible, visit, request.
  destruct (Qle_bool _ _); cbn; [|discriminate].
  destruct (py_eq_str (address_type task) "http"); cbn; [reflexivity|].
  destruct (py_eq_str (address_type task) "socket"); [reflexivity | discriminate].
Qed.

Lemma list_remove_middle kept task rest :
  task_id task ∉ ids kept ->
  list_remove task (kept ++ task :: rest) = Some (kept ++ rest).
Proof.
  induction kept as [|y kept IH]; cbn.
  - intros _. rewrite Nat.eqb_refl. reflexivity.
  - rewrite not_elem_of_cons. intros [Hne Hn].
    destruct (Nat.eqb_spec (task_id y) (task_id task)) as [Heq|_]; [congruence|].
    rewrite IH by exact Hn. reflexivity.
Qed.

Lemma every_other_length {A} (l : list A) :
  length (every_other true l) = (S (length l)) / 2 /\
  length (every_other false l) = length l / 2.
Proof.
  induction l as [|x l [IHt IHf]]; cbn [every_other length]; [split; reflexivity|].
  rewrite IHf. split; [|exact IHt].
  change (S (S (length l))) with (1 * 2 + length l) at 1.
  rewrite Nat.add_comm, Nat.div_add by discriminate. lia.
Qed.

Lemma every_other_sublist {A} (b : bool) (l : list A) :
  every_other b l `sublist_of` l.
Proof.
  induction l as [|x l IH] in b |- *; cbn; [constructor|].
  destruct b; constructor; apply IH.
Qed.

Lemma every_other_Permutation {A} (l : list A) :
  every_other true l ++ every_other false l ≡ₚ l.
Proof.
  induction l as [|x l IH]; cbn; [reflexivity|].
  constructor. rewrite Permutation_app_comm. exact IH.
Qed.

Lemma for_tasks_exhausted w fuel i st :
  tasks st !! i = None -> for_tasks w fuel i st = Done st.
Proof. intros H. destruct fuel; cbn; rewrite H; reflexivity. Qed.

(** The scan from position [length kept], when everything from there on is
    ready: it sends the first task, skips the second, and so on. *)
Lemma for_tasks_every_other w fuel kept rest st :
  tasks st = kept ++ rest ->
  NoDup (ids (kept ++ rest)) ->
  length rest <= fuel ->
  Forall (ready w) rest ->
  exists st' new,
    for_tasks w fuel (length kept) st = Done st' /\
    tasks st' = kept ++ every_other false rest /\
    sent st' = sent st ++ new /\
    d_task <$> new = every_other true rest /\
    Forall (fun d => d_error d = None) new.
Proof.
  induction fuel as [|fuel IH] in kept, rest, st |- *; intros Hst Hnd Hlen Hready.
  - destruct rest; [|cbn in Hlen; lia]. cbn. rewrite Hst, app_nil_r.
    rewrite lookup_ge_None_2 by lia. exists st, [].
    rewrite Hst, !app_nil_r. repeat split. constructor.
  - destruct rest as [|t rest].
    + cbn. rewrite Hst, app_nil_r. rewrite lookup_ge_None_2 by lia. exists st, [].
      rewrite Hst, !app_nil_r. repeat split. constructor.
    + cbn [for_tasks]. rewrite Hst.
      rewrite lookup_app_r, Nat.sub_diag by lia. cbn [lookup list_lookup].
      apply Forall_cons in Hready as [Ht Hready].
      rewrite visit_eligible by apply Ht.
      destruct (Ht (S (ticks st))) as [_ Hreq].
      destruct (request w (S (ticks st)) t) as [calls err]. cbn in Hreq. subst err.
      cbn [send_then_remove]. unfold remove_task. cbn [tasks tick]. rewrite Hst.
      assert (Hout : task_id t ∉ ids kept).
      { unfold ids in Hnd |- *. rewrite fmap_app in Hnd.
        apply NoDup_app in Hnd as (_ & Hd & _). intros Hin.
        apply (Hd _ Hin). cbn. apply list_elem_of_here. }
      rewrite list_remove_middle by exact Hout.
      set (d := mkDispatch t (clock w (ticks st)) calls None).
      set (st1 := record_dispatch d _).
      assert (Hnd1 : NoDup (ids (kept ++ rest))).
      { eapply sublist_NoDup; [exact Hnd|]. unfold ids. apply fmap_sublist.
        apply sublist_app; [reflexivity|]. constructor. reflexivity. }
      destruct rest as [|u rest].
      * exists st1, [d]. split.
        -- apply for_tasks_exhausted. subst st1. cbn.
           rewrite app_nil_r. apply lookup_ge_None_2. lia.
        -- subst st1. cbn. rewrite app_nil_r. repeat split. repeat constructor.
      * destruct (IH (kept ++ [u]) rest st1) as (st' & new & Hf & Htk & Hsn & Hnew & Herr).
        -- subst st1. cbn. rewrite <- app_assoc. reflexivity.
        -- rewrite <- app_assoc. exact Hnd1.
        -- cbn in Hlen. lia.
        -- apply Forall_cons in Hready as [_ Hready]. exact Hready.
        -- rewrite length_app, Nat.add_comm in Hf. cbn in Hf.
           exists st', (d :: new). split; [exact Hf|].
           rewrite Htk, Hsn. subst st1. cbn. rewrite <- !app_assoc, Hnew.
           repeat split. constructor; [reflexivity | exact Herr].
Qed.

(** In the calm world the example tasks are ready. *)
Lemma calm_ready (i : nat) :
  ready calm (http_task i) /\ ready calm (socket_task i).
Proof.
  assert (Hdue : forall k, Qle_bool 0 (clock calm k) = true).
  { intros k. unfold Qle_bool. cbn. apply Z.leb_le. lia. }
  split; intros k; (split; [|reflexivity]); unfold eligible; cbn [settings_time http_task socket_task];
    rewrite Hdue; reflexivity.
Qed.

Lemma iter_every_other_length {A} (n : nat) (l : list A) :
  length (Nat.iter n (every_other false) l) = length l / 2 ^ n.
Proof.
  induction n as [|n IH].
  - change (length l = length l / 1). symmetry. apply Nat.div_1_r.
  - rewrite Nat.iter_succ, (proj2 (every_other_length _)), IH, Nat.Div0.div_div.
    rewrite Nat.pow_succ_r', (Nat.mul_comm 2). reflexivity.
Qed.

(** X5. When every stored task is due, of a known type, and its request
    returns, one scan sends the tasks at positions 0, 2, 4, ... of the
    store and leaves those at positions 1, 3, 5, ... behind, in order:
    removing the task just sent moves its right neighbour under the
    iterator. *)
Theorem scan_sends_every_other w st :
  NoDup (ids (tasks st)) ->
  Forall (fun t => forall k, eligible w k t = true /\ (request w k t).2 = None)
         (tasks st) ->
  exists st' new,
    scan w st = Done st' /\
    tasks st' = every_other false (tasks st) /\
    sent st' = sent st ++ new /\
    d_task <$> new = every_other true (tasks st) /\
    Forall (fun d => d_error d = None) new.
Proof.
  intros Hnd Hready.
  destruct (for_tasks_every_other w (length (tasks st)) [] (tasks st) st)
    as (st' & new & Hf & Htk & Hsn & Hnew & Herr); auto.
  cbn in Hf. unfold scan. rewrite Hf.
  exists (tick st'), new. repeat split; assumption.
Qed.

Lemma scan_sends_every_other_witness :
  let st := with_tasks [http_task 1; socket_task 2; http_task 3] in
  NoDup (ids (tasks st)) /\
  exists st' new,
    scan calm st = Done st' /\
    tasks st' = every_other false (tasks st) /\
    sent st' = sent st ++ new /\
    d_task <$> new = every_other true (tasks st) /\
    Forall (fun d => d_error d = None) new.
Proof.
  intros st.
  assert (Hnd : NoDup (ids (tasks st))) by compute_done.
  split; [exact Hnd|].
  apply (scan_sends_every_other calm st Hnd).
  subst st. cbn [tasks with_tasks set_tasks].
  repeat (apply Forall_cons; split; [apply calm_ready|]).
  apply Forall_nil_2.
Defined.

(** The same, turn after turn. *)
Lemma _manage_halves w (n : nat) st :
  NoDup (ids (tasks st)) ->
  Forall (ready w) (tasks st) ->
  exists st' new,
    _manage w n st = Done st' /\
    tasks st' = Nat.iter n (every_other false) (tasks st) /\
    sent st' = sent st ++ new /\
    (d_task <$> new) ++ tasks st' ≡ₚ tasks st /\
    Forall (fun d => d_error d = None) new.
Proof.
  induction n as [|n IH] in st |- *; intros Hnd Hready.
  - exists st, []. cbn. rewrite app_nil_r.
    split; [reflexivity|]. split; [reflexivity|]. split; [reflexivity|].
    split; [reflexivity | constructor].
  - assert (exists st1 new1,
              scan w st = Done st1 /\ tasks st1 = every_other false (tasks st) /\
              sent st1 = sent st ++ new1 /\
              d_task <$> new1 = every_other true (tasks st) /\
              Forall (fun d => d_error d = None) new1)
      as (st1 & new1 & Hs & Htk & Hsn & Hnew & Herr).
    { destruct (for_tasks_every_other w (length (tasks st)) [] (tasks st) st)
        as (s1 & new1 & Hf & ? & ? & ? & ?); auto.
      cbn in Hf. unfold scan. rewrite Hf. exists (tick s1), new1. auto. }
    destruct (IH st1) as (st' & new & Hm & Htk' & Hsn' & Hperm & Herr').
    + rewrite Htk. eapply sublist_NoDup; [exact Hnd|].
      unfold ids. apply fmap_sublist, every_other_sublist.
    + rewrite Htk. apply Forall_forall. intros t Ht.
      rewrite Forall_forall in Hready. apply Hready.
      eapply elem_of_sublist; [exact Ht | apply every_other_sublist].
    + exists st', (new1 ++ new). cbn [_manage]. rewrite Hs, Hm.
      split; [reflexivity|]. split.
      { rewrite Htk', Htk. apply Nat.iter_swap. }
      split; [rewrite Hsn', Hsn, app_assoc; reflexivity|].
      split; [|apply Forall_app; split; assumption].
      rewrite fmap_app, <- app_assoc, Hperm, Hnew, Htk.
      apply every_other_Permutation.
Qed.

(** X6. In the same circumstances the loop does empty the store: a store
    of fewer than [2 ^ n] tasks is empty after [n] turns and every task in
    it has been sent once, without an error. *)
Theorem store_emptied_in_log_turns w (n : nat) st :
  NoDup (ids (tasks st)) ->
  Forall (fun t => forall k, eligible w k t = true /\ (request w k t).2 = None)
         (tasks st) ->
  length (tasks st) < 2 ^ n ->
  exists st' new,
    _manage w n st = Done st' /\
    tasks st' = [] /\
    sent st' = sent st ++ new /\
    d_task <$> new ≡ₚ tasks st /\
    Forall (fun d => d_error d = None) new.
Proof.
  intros Hnd Hready Hlen.
  destruct (_manage_halves w n st Hnd Hready) as (st' & new & Hm & Htk & Hsn & Hperm & Herr).
  assert (Hnil : tasks st' = []).
  { apply nil_length_inv. rewrite Htk, iter_every_other_length.
    apply Nat.div_small. exact Hlen. }
  exists st', new. rewrite Hnil, app_nil_r in Hperm.
  split; [exact Hm|]. split; [exact Hnil|]. split; [exact Hsn|].
  split; [exact Hperm | exact Herr].
Qed.

Lemma store_emptied_in_log_turns_witness :
  let st := with_tasks [http_task 1; http_task 2; http_task 3; http_task 4] in
  NoDup (ids (tasks st)) /\ length (tasks st) < 2 ^ 3 /\
  exists st' new,
    _manage calm 3 st = Done st' /\
    tasks st' = [] /\
    sent st' = sent st ++ new /\
    d_task <$> new ≡ₚ tasks st /\
    Forall (fun d => d_error d = None) new.
Proof.
  intros st.
  assert (Hnd : NoDup (ids (tasks st))) by compute_done.
  assert (Hlen : length (tasks st) < 2 ^ 3) by (vm_compute; lia).
  split; [exact Hnd|]. split; [exact Hlen|].
  refine (store_emptied_in_log_turns calm 3 st Hnd _ Hlen).
  subst st. cbn [tasks with_tasks set_tasks].
  repeat (apply Forall_cons; split; [apply calm_ready|]).
  apply Forall_nil_2.
Defined.

Lemma NoDup_ids_inj l (x y : Task) :
  NoDup (ids l) -> x ∈ l -> y ∈ l -> task_id x = task_id y -> x = y.
Proof.
  unfold ids. induction l as [|z l IH]; cbn; [intros _ H; inversion H|].
  rewrite NoDup_cons, !elem_of_cons. intros [Hz Hnd] [->|Hx] [->|Hy] Hid; auto.
  - exfalso. apply Hz. rewrite Hid. apply list_elem_of_fmap. eauto.
  - exfalso. apply Hz. rewrite <- Hid. apply list_elem_of_fmap. eauto.
Qed.

Lemma delivered_ids_snoc st (d : dispatch) :
  delivered_ids (record_dispatch d st) =
    delivered_ids st ++ (if succeeded d then [task_id (d_task d)] else []).
Proof.
  unfold delivered_ids. cbn. rewrite List.filter_app, fmap_app. cbn.
  destruct (succeeded d); reflexivity.
Qed.

(** X7. The loop neither loses nor invents a task: at every point the
    tasks in the store together with the tasks whose send has returned
    are, counted with multiplicity, the ones that were there at the start.
    This holds as well when the loop has ended on an exception. *)
Theorem tasks_conserved w (passes : nat) st :
  match _manage w passes st with
  | Done st' | Raised st' _ =>
      ids (tasks st') ++ delivered_ids st' ≡ₚ ids (tasks st) ++ delivered_ids st
  | OutOfFuel => False
  end.
Proof.
  pose proof (_manage_total w passes st) as Htot.
  pose (P := fun s : state =>
    ids (tasks s) ++ delivered_ids s ≡ₚ ids (tasks st) ++ delivered_ids st).
  assert (Hstep : forall s i task s' err, tasks s !! i = Some task -> P s ->
            visit w task s = (s', err) -> P s').
  { intros s i task s' err Hi HP Hv.
    apply visit_cases in Hv; [|eapply lookup_ids; eauto].
    destruct Hv as [[_ ->]|[_ [(_ & c & l & Hl & ->)|(c & e & _ & ->)]]]; [exact HP| |].
    - unfold P in *. rewrite delivered_ids_snoc. cbn -[delivered_ids].
      change (delivered_ids (set_tasks l (tick s))) with (delivered_ids s).
      rewrite <- HP.
      apply list_remove_Some in Hl as (l1 & y & l2 & -> & -> & Hy & _).
      unfold ids. rewrite !fmap_app, fmap_cons, Hy.
      rewrite <- !app_assoc. apply Permutation_app_head.
      rewrite app_assoc, Permutation_app_comm. reflexivity.
    - unfold P in *. rewrite delivered_ids_snoc. cbn -[delivered_ids].
      rewrite app_nil_r. exact HP. }
  pose proof (_manage_invariant P (fun s _ => P s) w
    (fun s i t s' => Hstep s i t s' None)
    (fun s i t s' e => Hstep s i t s' (Some e))
    (fun s HP => HP) passes st) as Hinv.
  lapply Hinv; [|unfold P; reflexivity].
  destruct (_manage w passes st); auto.
Qed.

(** X8. The store only shrinks, and what stays keeps its order: after any
    number of turns the store is a sublist of the store at the start. *)
Theorem store_only_shrinks w (passes : nat) st :
  match _manage w passes st with
  | Done st' | Raised st' _ => tasks st' `sublist_of` tasks st
  | OutOfFuel => False
  end.
Proof.
  pose proof (_manage_total w passes st) as Htot.
  pose (P := fun s : state => tasks s `sublist_of` tasks st).
  assert (Hstep : forall s i task s' err, tasks s !! i = Some task -> P s ->
            visit w task s = (s', err) -> P s').
  { intros s i task s' err Hi HP Hv.
    apply visit_cases in Hv; [|eapply lookup_ids; eauto].
    destruct Hv as [[_ ->]|[_ [(_ & c & l & Hl & ->)|(c & e & _ & ->)]]];
      [exact HP| |exact HP].
    unfold P in *. cbn. etransitivity; [|exact HP].
    apply list_remove_Some in Hl as (l1 & y & l2 & -> & -> & _).
    apply sublist_app; [reflexivity|]. constructor. reflexivity. }
  pose proof (_manage_invariant P (fun s _ => P s) w
    (fun s i t s' => Hstep s i t s' None)
    (fun s i t s' e => Hstep s i t s' (Some e))
    (fun s HP => HP) passes st) as Hinv.
  lapply Hinv; [|unfold P; reflexivity].
  destruct (_manage w passes st); auto.
Qed.

(** X9. A task that never passes the two tests of the loop body - its
    deadline is after every reading of the clock, or its type is neither
    [http] nor [socket] - is never dispatched and never leaves the store,
    whatever happens to the other tasks. *)
Theorem ineligible_task_stays w (passes : nat) st (t : Task) :
  NoDup (ids (tasks st)) ->
  t ∈ tasks st ->
  task_id t ∉ sent_ids st ->
  (forall k, eligible w k t = false) ->
  match _manage w passes st with
  | Done st' | Raised st' _ => t ∈ tasks st' /\ task_id t ∉ sent_ids st'
  | OutOfFuel => False
  end.
Proof.
  intros Hnd Hin Hns Hnever.
  pose proof (_manage_total w passes st) as Htot.
  pose (P := fun s : state =>
    NoDup (ids (tasks s)) /\ t ∈ tasks s /\ task_id t ∉ sent_ids s).
  assert (Hstep : forall s i task s' err, tasks s !! i = Some task -> P s ->
            visit w task s = (s', err) -> P s').
  { intros s i task s' err Hi (Hnd' & Hin' & Hns') Hv.
    destruct (eligible w (ticks s) task) eqn:Hel.
    - assert (Hne : task_id task <> task_id t).
      { intros Hid. assert (task = t) as ->.
        { eapply NoDup_ids_inj; eauto. eapply list_elem_of_lookup_2; eauto. }
        rewrite Hnever in Hel. discriminate. }
      apply visit_cases in Hv; [|eapply lookup_ids; eauto].
      destruct Hv as [[_ ->]|[_ [(_ & c & l & Hl & ->)|(c & e & _ & ->)]]];
        [split; auto| |].
      + unfold P, sent_ids. cbn. rewrite fmap_app. cbn.
        rewrite not_elem_of_app, list_elem_of_singleton.
        pose proof Hl as Hl'.
        apply list_remove_Some in Hl as (l1 & y & l2 & Heq & -> & Hy & _).
        rewrite Heq in Hin', Hnd'. split; [|split; [|split; [exact Hns' | congruence]]].
        * eapply sublist_NoDup; [exact Hnd'|]. unfold ids. apply fmap_sublist.
          apply sublist_app; [reflexivity|]. constructor. reflexivity.
        * rewrite elem_of_app, elem_of_cons in Hin'. rewrite elem_of_app.
          destruct Hin' as [?|[->|?]]; auto. congruence.
      + unfold P, sent_ids. cbn. rewrite fmap_app. cbn.
        rewrite not_elem_of_app, list_elem_of_singleton.
        split; [exact Hnd'|]. split; [exact Hin'|]. split; [exact Hns' | congruence].
    - rewrite visit_not_eligible in Hv by exact Hel.
      injection Hv as <- <-. split; auto. }
  pose proof (_manage_invariant P (fun s _ => P s) w
    (fun s i t s' => Hstep s i t s' None)
    (fun s i t s' e => Hstep s i t s' (Some e))
    (fun s HP => HP) passes st) as Hinv.
  lapply Hinv; [|unfold P; auto].
  destruct (_manage w passes st) as [s'|s' e|]; [intros (_ & ? & ?)..|]; auto.
Qed.

Lemma ineligible_task_stays_witness :
  let t := {| task_id := 2; title := JStr "job"; address_type := JStr "ftp";
              address_link := JStr "example"; settings_time := 0;
              settings_data := JObj ∅ |} in
  let st := with_tasks [http_task 1; t; socket_task 3] in
  NoDup (ids (tasks st)) /\ t ∈ tasks st /\ (task_id t ∉ sent_ids st) /\
  match _manage no_listener 4 st with
  | Done st' | Raised st' _ => t ∈ tasks st' /\ task_id t ∉ sent_ids st'
  | OutOfFuel => False
  end.
Proof.
  intros t st.
  assert (H1 : NoDup (ids (tasks st))) by compute_done.
  assert (H2 : t ∈ tasks st) by (subst st; cbn; apply list_elem_of_further, list_elem_of_here).
  assert (H3 : task_id t ∉ sent_ids st) by (cbn; apply not_elem_of_nil).
  split; [exact H1|]. split; [exact H2|]. split; [exact H3|].
  refine (ineligible_task_stays no_listener 4 st t H1 H2 H3 _).
  intros k. unfold eligible. apply andb_false_r.
Defined.

(** Witness of [no_early_dispatch] (X10). *)
Lemma no_early_dispatch_witness :
  let st := (add_task calm (submission "ping" "http" "http://example.test/x" (JNum 30))
               initial).1 in
  Forall (fun d => (settings_time (d_task d) <= d_at d)%Q) (sent st) /\
  match _manage calm 20 st with
  | Done st' | Raised st' _ =>
      Forall (fun d => (settings_time (d_task d) <= d_at d)%Q) (sent st')
  | OutOfFuel => False
  end.
Proof.
  intros st.
  assert (H : Forall (fun d => (settings_time (d_task d) <= d_at d)%Q) (sent st))
    by apply Forall_nil_2.
  split; [exact H|].
  exact (no_early_dispatch calm 20 st H).
Defined.

End SchedulerMore.

(** * The request handler *)

Section Handler.

Implicit Types (w : world) (p : peer) (st : state) (data : json).

(** The exceptions of the constructor. *)
Lemma Task_init_Raise self data now e :
  Task_init self data now = Raise e ->
  (e = AttributeError /\ is_dict data = false) \/
  (e = TypeError /\ is_dict data = true /\
   truthy (field (field data "settings") "time") = true /\
   py_number (field (field data "settings") "time") = None) \/
  (e = OverflowError /\ is_dict data = true /\
   exists d, py_number (field (field data "settings") "time") = Some d /\
             float_overflow d = true) \/
  (exists msg, e = ValidateError msg).
Proof.
  destruct data as [| | | | |m]; try (intros [= <-]; left; split; reflexivity).
  unfold Task_init; cbn.
  destruct (truthy (dict_get m "title")); cbn; [|intros [= <-]; eauto 6].
  destruct (dict_get m "address") as [| | | | |a]; cbn; try (intros [= <-]; eauto 6).
  destruct (dict_get m "settings") as [| | | | |s]; cbn; try (intros [= <-]; eauto 6).
  destruct (truthy (dict_get a "type")); cbn; [|intros [= <-]; eauto 6].
  destruct (truthy (dict_get a "link")); cbn; [|intros [= <-]; eauto 6].
  destruct (truthy (dict_get s "time")) eqn:Ht; cbn; [|intros [= <-]; eauto 6].
  unfold py_add_float.
  destruct (py_number (dict_get s "time")) as [d|] eqn:Hn; cbn.
  - destruct (float_overflow d) eqn:Hov; cbn; [|discriminate].
    intros [= <-]. right. right. left. eauto.
  - intros [= <-]. right. left. auto.
Qed.

Lemma reads_clock_Ok self data now (t : Task) :
  Task_init self data now = Ok t -> reads_clock data = true.
Proof.
  intros (m & a & s & d & -> & Ha & Hs & Ht & Hty & Hl & Htm & _)%Task_init_Ok.
  unfold reads_clock. cbn. rewrite Ha, Hs. cbn. rewrite Ht, Hty, Hl, Htm. reflexivity.
Qed.

(** The handler, case by case of what it is given: what it does to the
    store, the dispatches and the counter of identities is what [add_task]
    does, when [add_task] is reached, and nothing otherwise. *)
Lemma handle_request_cases w p st :
  let out := handle_request w p st in
  (exists e, recv_all (decode p) (recv p) "" = Raise e /\
             tasks out.1 = tasks st /\ sent out.1 = sent st /\
             next_oid out.1 = next_oid st) \/
  (exists text, recv_all (decode p) (recv p) "" = Ok text /\
                json_loads p text = NotJSON /\
                tasks out.1 = tasks st /\ sent out.1 = sent st /\
                next_oid out.1 = next_oid st) \/
  (exists text e, recv_all (decode p) (recv p) "" = Ok text /\
                  json_loads p text = LoadsRaised e /\
                  tasks out.1 = tasks st /\ sent out.1 = sent st /\
                  next_oid out.1 = next_oid st) \/
  (exists text data, recv_all (decode p) (recv p) "" = Ok text /\
                     json_loads p text = Loaded data /\
                     tasks out.1 = tasks (add_task w data st).1 /\
                     sent out.1 = sent (add_task w data st).1 /\
                     ((add_task w data st).2 = Ok (Some tt) -> out.2 = Ok (Some [])) /\
                     next_oid out.1 = next_oid (add_task w data st).1).
Proof.
  unfold handle_request, logger, handle_request_body.
  destruct (recv_all (decode p) (recv p) "") as [text|e] eqn:Hr; cbn;
    [|left; eauto 6].
  right. destruct (json_loads p text) as [data| |e] eqn:Hj; cbn.
  - right. right. exists text, data. split; [reflexivity|]. split; [exact Hj|].
    destruct (add_task w data st) as [s1 [o|e]]; cbn; [auto 6|].
    destruct e; cbn; repeat split; discriminate.
  - left. eauto 6.
  - right. left. exists text, e. destruct e; cbn; auto 6.
Qed.

(** X11. A request appends a task exactly when the stream was read,
    decoded and parsed and the constructor accepted the value: then the
    new task is at the end of the store, under a fresh identity, also
    when the printing that [DEBUG] turns on raises afterwards; the handler
    returns normally when [DEBUG] is off or that printing returns. In
    every other case the store is as before. A request never touches the
    list of dispatches. *)
Theorem handle_request_store w p st :
  let st' := (handle_request w p st).1 in
  sent st' = sent st /\
  (forall text data t,
     recv_all (decode p) (recv p) "" = Ok text ->
     json_loads p text = Loaded data ->
     Task_init (next_oid st) data (clock w (ticks st)) = Ok t ->
     tasks st' = tasks st ++ [t] /\ task_id t = next_oid st /\
     (DEBUG w = false \/ print w (S (ticks st)) (tasks st ++ [t]) = None ->
      (handle_request w p st).2 = Ok (Some []))) /\
  ((forall text data t,
      recv_all (decode p) (recv p) "" = Ok text ->
      json_loads p text = Loaded data ->
      Task_init (next_oid st) data (clock w (ticks st)) <> Ok t) ->
   tasks st' = tasks st).
Proof.
  destruct (handle_request_cases w p st) as
    [(e & Hr & Ht & Hs & _)|[(text & Hr & Hj & Ht & Hs & _)
    |[(text & e & Hr & Hj & Ht & Hs & _)
     |(text & data & Hr & Hj & Ht & Hs & Hok & _)]]]; cbn zeta.
  - split; [exact Hs|]. split; [|intros _; exact Ht].
    intros ? ? ? H. rewrite Hr in H. discriminate.
  - split; [exact Hs|]. split; [|intros _; exact Ht].
    intros ? ? ? H H'. rewrite Hr in H. injection H as <-. rewrite Hj in H'. discriminate.
  - split; [exact Hs|]. split; [|intros _; exact Ht].
    intros ? ? ? H H'. rewrite Hr in H. injection H as <-. rewrite Hj in H'. discriminate.
  - destruct (Task_init (next_oid st) data (clock w (ticks st))) as [t|e] eqn:Hi.
    + pose proof (reads_clock_Ok _ _ _ _ Hi) as Hrc.
      assert (Hid : task_id t = next_oid st).
      { apply Task_init_Ok in Hi as (? & ? & ? & ? & _ & _ & _ & _ & _ & _ & _ & _ & _ & ->).
        reflexivity. }
      rewrite add_task_eq, Hi, Hrc in Ht, Hs, Hok. cbn in Ht, Hs, Hok.
      assert (Htk : tasks (handle_request w p st).1 = tasks st ++ [t]).
      { rewrite Ht. destruct (DEBUG w); [destruct (print w _ _)|]; reflexivity. }
      assert (Hsn : sent (handle_request w p st).1 = sent st).
      { rewrite Hs. destruct (DEBUG w); [destruct (print w _ _)|]; reflexivity. }
      split; [exact Hsn|]. split.
      * intros text' data' t' H H' H''. rewrite Hr in H. injection H as <-.
        rewrite Hj in H'. injection H' as <-. rewrite Hi in H''. injection H'' as <-.
        split; [exact Htk|]. split; [exact Hid|].
        intros Hpr. apply Hok.
        destruct Hpr as [-> | Hp]; [reflexivity|].
        rewrite Hp. destruct (DEBUG w); reflexivity.
      * intros Hno. exfalso. eapply Hno; eauto.
    + destruct (add_task_rejected w data st e Hi) as (st1 & Hadd & Htk & Hsn & _).
      rewrite Hadd in Ht, Hs. cbn in Ht, Hs.
      split; [rewrite Hs; exact Hsn|]. split; [|intros _; rewrite Ht; exact Htk].
      intros text' data' t' H H' H''. rewrite Hr in H. injection H as <-.
      rewrite Hj in H'. injection H' as <-. rewrite Hi in H''. discriminate.
Qed.



(** X13. An exception of the constructor that is not a [ValidateError] - a
    [TypeError] for a delay that is not a number, an [AttributeError] for
    a JSON value that is not an object, an [OverflowError] - ends the
    handler: it is raised again by [add_task] and by [handle_request], each
    decorator logs it, so the log gets it twice, and the store and the
    dispatches are as before. *)
Theorem handle_request_raises w p st text data e :
  recv_all (decode p) (recv p) "" = Ok text ->
  json_loads p text = Loaded data ->
  Task_init (next_oid st) data (clock w (ticks st)) = Raise e ->
  (forall msg, e <> ValidateError msg) ->
  exists st',
    handle_request w p st = (st', Raise e) /\
    tasks st' = tasks st /\ sent st' = sent st /\ log st' = log st ++ [e; e].
Proof.
  intros Hr Hj Hi Hne.
  unfold handle_request, logger, handle_request_body. rewrite Hr, Hj.
  rewrite add_task_eq, Hi. cbn.
  destruct e; try (exfalso; eapply Hne; reflexivity); cbn;
    eexists; (split; [reflexivity|]);
    destruct (reads_clock data); cbn; rewrite <- app_assoc; repeat split.
Qed.

Lemma handle_request_raises_witness :
  let p := {| recv := [Ok "[]"];
              decode := Some;
              json_loads := fun s => if String.eqb s "[]" then Loaded (JArr []) else NotJSON |} in
  recv_all (decode p) (recv p) "" = Ok "[]" /\
  Task_init (next_oid initial) (JArr []) (clock mute (ticks initial)) = Raise AttributeError /\
  exists st',
    handle_request mute p initial = (st', Raise AttributeError) /\
    tasks st' = tasks initial /\ sent st' = sent initial /\
    log st' = log initial ++ [AttributeError; AttributeError].
Proof.
  intros p.
  assert (Hr : recv_all (decode p) (recv p) "" = Ok "[]") by reflexivity.
  assert (Hi : Task_init (next_oid initial) (JArr []) (clock mute (ticks initial))
               = Raise AttributeError) by reflexivity.
  split; [exact Hr|]. split; [exact Hi|].
  refine (handle_request_raises mute p initial "[]" (JArr []) AttributeError
            Hr eq_refl Hi _).
  intros msg. discriminate.
Defined.

(** X14. Beside [ValidateError] the constructor raises three exceptions
    only: [AttributeError], exactly when the submitted value is not a dict;
    [TypeError], exactly when all three guards pass and the delay is truthy
    but not a number - a delay sent as a string, for instance; and
    [OverflowError], exactly when the guards pass and the delay is an
    [int] too large for a [float]. *)
Theorem Task_init_unexpected_errors (self : nat) data (now : Q) :
  (Task_init self data now = Raise AttributeError <-> is_dict data = false) /\
  (Task_init self data now = Raise TypeError <->
   exists m a s,
     data = JObj m /\ dict_get m "address" = JObj a /\ dict_get m "settings" = JObj s /\
     truthy (dict_get m "title") = true /\
     truthy (dict_get a "type") = true /\ truthy (dict_get a "link") = true /\
     truthy (dict_get s "time") = true /\ py_number (dict_get s "time") = None) /\
  (Task_init self data now = Raise OverflowError <->
   exists m a s d,
     data = JObj m /\ dict_get m "address" = JObj a /\ dict_get m "settings" = JObj s /\
     truthy (dict_get m "title") = true /\
     truthy (dict_get a "type") = true /\ truthy (dict_get a "link") = true /\
     truthy (dict_get s "time") = true /\ py_number (dict_get s "time") = Some d /\
     float_overflow d = true) /\
  (forall e, Task_init self data now = Raise e ->
     e = AttributeError \/ e = TypeError \/ e = OverflowError \/
     exists msg, e = ValidateError msg).
Proof.
  assert (Hcases : forall e, Task_init self data now = Raise e ->
            (e = TypeError \/ e = OverflowError) ->
            exists m a s,
              data = JObj m /\ dict_get m "address" = JObj a /\
              dict_get m "settings" = JObj s /\
              truthy (dict_get m "title") = true /\
              truthy (dict_get a "type") = true /\ truthy (dict_get a "link") = true /\
              truthy (dict_get s "time") = true /\
              match py_number (dict_get s "time") with
              | None => e = TypeError
              | Some d => e = OverflowError /\ float_overflow d = true
              end).
  { intros e. destruct data as [| | | | |m]; try (intros [= <-] [?|?]; discriminate).
    unfold Task_init; cbn.
    destruct (truthy (dict_get m "title")) eqn:Ht; cbn;
      [|intros [= <-] [?|?]; discriminate].
    destruct (dict_get m "address") as [| | | | |a] eqn:Ha; cbn;
      try (intros [= <-] [?|?]; discriminate).
    destruct (dict_get m "settings") as [| | | | |s] eqn:Hs; cbn;
      try (intros [= <-] [?|?]; discriminate).
    destruct (truthy (dict_get a "type")) eqn:Hty; cbn;
      [|intros [= <-] [?|?]; discriminate].
    destruct (truthy (dict_get a "link")) eqn:Hl; cbn;
      [|intros [= <-] [?|?]; discriminate].
    destruct (truthy (dict_get s "time")) eqn:Htm; cbn;
      [|intros [= <-] [?|?]; discriminate].
    unfold py_add_float.
    destruct (py_number (dict_get s "time")) as [d|] eqn:Hn; cbn.
    - destruct (float_overflow d) eqn:Hov; cbn; [|discriminate].
      intros [= <-] _. exists m, a, s. rewrite Hn. repeat split; auto.
    - intros [= <-] _. exists m, a, s. rewrite Hn. repeat split; auto. }
  split; [|split; [|split]].
  - split.
    + intros H. apply Task_init_Raise in H as [[_ ?]|[[? _]|[[? _]|[? ?]]]];
        auto; discriminate.
    + destruct data; try discriminate; reflexivity.
  - split.
    + intros H. destruct (Hcases _ H (or_introl eq_refl))
        as (m & a & s & ? & ? & ? & ? & ? & ? & ? & Hn).
      exists m, a, s. destruct (py_number (dict_get s "time")) eqn:Hd;
        [destruct Hn; discriminate|]. repeat split; auto.
    + intros (m & a & s & -> & Ha & Hs & Ht & Hty & Hl & Htm & Hn).
      unfold Task_init; cbn. rewrite Ht, Ha, Hs. cbn. rewrite Hty, Hl. cbn.
      rewrite Htm. cbn. unfold py_add_float. rewrite Hn. reflexivity.
  - split.
    + intros H. destruct (Hcases _ H (or_intror eq_refl))
        as (m & a & s & ? & ? & ? & ? & ? & ? & ? & Hn).
      destruct (py_number (dict_get s "time")) as [d|] eqn:Hd; [|discriminate].
      destruct Hn as [_ Hov]. exists m, a, s, d. repeat split; auto.
    + intros (m & a & s & d & -> & Ha & Hs & Ht & Hty & Hl & Htm & Hn & Hov).
      unfold Task_init; cbn. rewrite Ht, Ha, Hs. cbn. rewrite Hty, Hl. cbn.
      rewrite Htm. cbn. unfold py_add_float. rewrite Hn, Hov. reflexivity.
  - intros e H. apply Task_init_Raise in H as [[? _]|[[? _]|[[? _]|?]]]; auto.
Qed.

End Handler.

(** * The process as a whole *)

Section Process.

Implicit Types (w : world) (p : peer) (st : state) (pr : process).

Lemma list_remove_Permutation (task : Task) (l l' : list Task) :
  list_remove task l = Some l' -> task_id task :: ids l' ≡ₚ ids l.
Proof.
  intros (l1 & y & l2 & -> & -> & Hy & _)%list_remove_Some.
  unfold ids. rewrite !fmap_app, fmap_cons, Hy. apply Permutation_middle.
Qed.

(** What a request does to the parts of the state the scheduler reads. *)
Lemma handle_request_effect w p st :
  let st' := (handle_request w p st).1 in
  sent st' = sent st /\
  ((tasks st' = tasks st /\ next_oid st <= next_oid st') \/
   (exists t, tasks st' = tasks st ++ [t] /\ task_id t = next_oid st /\
              next_oid st' = S (next_oid st))).
Proof.
  destruct (handle_request_cases w p st) as
    [(e & _ & Ht & Hs & Hn)|[(text & _ & _ & Ht & Hs & Hn)
    |[(text & e & _ & _ & Ht & Hs & Hn)
     |(text & data & _ & _ & Ht & Hs & _ & Hn)]]]; cbn zeta;
    try (split; [exact Hs|]; left; split; [exact Ht | rewrite Hn; reflexivity]).
  destruct (Task_init (next_oid st) data (clock w (ticks st))) as [t|e] eqn:Hi.
  - destruct (add_task_accepted w data st t Hi) as (s1 & r & Hadd & Htk & Hsn & Hno & _).
    rewrite Hadd in Ht, Hs, Hn. cbn in Ht, Hs, Hn.
    split; [rewrite Hs; exact Hsn|]. right. exists t.
    split; [rewrite Ht; exact Htk|]. split; [|rewrite Hn; exact Hno].
    apply Task_init_Ok in Hi as (? & ? & ? & ? & _ & _ & _ & _ & _ & _ & _ & _ & _ & ->).
    reflexivity.
  - destruct (add_task_rejected w data st e Hi) as (s1 & Hadd & Htk & Hsn & _ & Hno).
    rewrite Hadd in Ht, Hs, Hn. cbn in Ht, Hs, Hn.
    split; [rewrite Hs; exact Hsn|]. left.
    split; [rewrite Ht; exact Htk|]. rewrite Hn, Hno. lia.
Qed.

(** What the tasks' identities satisfy while the scheduler is running
    ([alive]) and after it has stopped. *)
Local Abbreviation ids_ok alive st :=
  (Forall (fun i => i < next_oid st) (sent_ids st ++ ids (tasks st)) /\
   NoDup (sent_ids st) /\ NoDup (ids (tasks st)) /\
   (alive = true -> NoDup (sent_ids st ++ ids (tasks st)))).

Lemma visit_ids_ok w (task : Task) st st' err i :
  tasks st !! i = Some task ->
  ids_ok true st ->
  visit w task st = (st', err) ->
  ids_ok (match err with Some _ => false | None => true end) st'.
Proof.
  intros Hi (Hb & Hs & Ht & Hst) Hv. specialize (Hst eq_refl).
  pose proof (lookup_ids _ _ _ Hi) as Hin.
  apply visit_cases in Hv; [|exact Hin].
  destruct Hv as [[-> ->]|[_ [(-> & c & l & Hl & ->)|(c & e & -> & ->)]]].
  - repeat split; auto.
  - unfold sent_ids. cbn. rewrite fmap_app. cbn.
    pose proof (list_remove_Permutation _ _ _ Hl) as Hp.
    assert (Hall : ((fun d => task_id (d_task d)) <$> sent st) ++ [task_id task] ++ ids l
                   ≡ₚ sent_ids st ++ ids (tasks st)).
    { apply Permutation_app_head. exact Hp. }
    rewrite <- app_assoc.
    assert (Hnd : NoDup (((fun d => task_id (d_task d)) <$> sent st) ++ [task_id task] ++ ids l))
      by (rewrite Hall; exact Hst).
    split; [rewrite Hall; exact Hb|].
    split; [|split; [|intros _; exact Hnd]].
    + rewrite app_assoc in Hnd. apply NoDup_app in Hnd as (? & _ & _). assumption.
    + apply NoDup_app in Hnd as (_ & _ & Hnd). apply NoDup_app in Hnd as (_ & _ & ?).
      assumption.
  - unfold sent_ids. cbn. rewrite fmap_app. cbn.
    split; [|split; [|split; [exact Ht | discriminate]]].
    + rewrite <- app_assoc. apply Forall_app. apply Forall_app in Hb as [Hb1 Hb2].
      split; [exact Hb1|]. apply Forall_app. split; [|exact Hb2].
      apply Forall_singleton. rewrite Forall_forall in Hb2. apply Hb2, Hin.
    + apply NoDup_app. apply NoDup_app in Hst as (_ & Hdisj & _).
      split; [exact Hs|]. split; [|apply NoDup_singleton].
      intros x Hx ->%list_elem_of_singleton. apply (Hdisj _ Hx Hin).
Qed.

Lemma scan_ids_ok w st :
  ids_ok true st ->
  match scan w st with
  | Done st' => ids_ok true st'
  | Raised st' _ => ids_ok false st'
  | OutOfFuel => False
  end.
Proof.
  intros H. pose proof (scan_total w st) as Htot. unfold scan in *.
  pose proof (for_tasks_invariant (fun s => ids_ok true s) (fun s _ => ids_ok false s) w
    (fun s i t s' Hi HP Hv => visit_ids_ok w t s s' None i Hi HP Hv)
    (fun s i t s' e Hi HP Hv => visit_ids_ok w t s s' (Some e) i Hi HP Hv)
    (length (tasks st)) 0 st H) as Hinv.
  destruct (for_tasks w (length (tasks st)) 0 st); [exact Hinv | exact Hinv | congruence].
Qed.

Lemma life_ids_ok w (acts : list action) :
  ids_ok (p_alive (life w acts)) (p_state (life w acts)).
Proof.
  unfold life. induction acts as [|a acts IH] using rev_ind.
  - cbn. repeat split; try constructor.
  - rewrite foldl_snoc.
    set (pr := foldl (act w) _ acts) in *.
    destruct a as [p|]; cbn.
    + destruct IH as (Hb & Hs & Ht & Hst).
      destruct (handle_request_effect w p (p_state pr)) as [Hsent Hcase].
      unfold sent_ids in *. rewrite Hsent.
      destruct Hcase as [[-> Hle]|(t & -> & Hid & ->)].
      * split; [|auto]. eapply Forall_impl; [exact Hb|]. cbn. intros; lia.
      * unfold ids. rewrite fmap_app. cbn. rewrite Hid.
        assert (Hfresh : next_oid (p_state pr) ∉
                  ((fun d => task_id (d_task d)) <$> sent (p_state pr)) ++ ids (tasks (p_state pr))).
        { intros Hin. rewrite Forall_forall in Hb. apply Hb in Hin. lia. }
        rewrite not_elem_of_app in Hfresh. destruct Hfresh as [Hf1 Hf2].
        split; [|split; [exact Hs|split]].
        -- rewrite app_assoc. apply Forall_app. split.
           ++ eapply Forall_impl; [exact Hb|]. cbn. intros; lia.
           ++ apply Forall_singleton. lia.
        -- apply NoDup_app. split; [exact Ht|]. split; [|apply NoDup_singleton].
           intros x Hx ->%list_elem_of_singleton. contradiction.
        -- intros Ha. specialize (Hst Ha). rewrite app_assoc.
           apply NoDup_app. split; [exact Hst|]. split; [|apply NoDup_singleton].
           intros x Hx ->%list_elem_of_singleton.
           apply elem_of_app in Hx as [?|?]; contradiction.
    + destruct (p_alive pr) eqn:Ha; [|rewrite Ha; exact IH].
      pose proof (scan_ids_ok w (p_state pr) IH) as Hscan.
      destruct (scan w (p_state pr)); cbn; [exact Hscan | exact Hscan | contradiction].
Qed.

(** X15. From the start of the server, through any sequence of requests
    and turns of the scheduler loop taken one at a time, the tasks in the
    store have pairwise distinct identities, all handed out by the
    process, and no task object has been dispatched twice. *)
Theorem process_never_repeats w (acts : list action) :
  let st := p_state (life w acts) in
  NoDup (ids (tasks st)) /\
  NoDup (sent_ids st) /\
  Forall (fun i => i < next_oid st) (ids (tasks st)).
Proof.
  destruct (life_ids_ok w acts) as (Hb & Hs & Ht & _).
  cbn. split; [exact Ht|]. split; [exact Hs|].
  apply Forall_app in Hb as [_ Hb]. exact Hb.
Qed.

End Process.

(** * The methods and the shared list *)

Module ObjectsMore.
Import ObjectsFacts.

(** X16. Called through any instance, the three store methods act on the
    one list of the class: [get_tasks] returns it, [append_task] adds the
    task at its end, and [remove_task] does to it what [list.remove] does,
    [ValueError] included - the same as the methods on the scheduler's
    state. *)
Theorem methods_act_on_shared_list (ops : list Objects.op) (self : nat) (task : Task) :
  is_Some (Objects.inst_dicts (Objects.run ops) !! self) ->
  let h := Objects.run ops in
  let st := with_tasks (Objects.shared h) in
  Objects.get_tasks h self = Ok (get_tasks st) /\
  (Objects.append_task h self task).2 = Ok tt /\
  Objects.shared (Objects.append_task h self task).1 = tasks (append_task task st) /\
  (Objects.remove_task h self task).2 = (remove_task task st).2 /\
  Objects.shared (Objects.remove_task h self task).1 = tasks (remove_task task st).1.
Proof.
  intros Hself h st. pose proof (wf_run ops) as Hwf. fold h in Hwf, Hself.
  destruct (Objects.wf_list h Hwf) as [l Hl].
  assert (Hsh : Objects.shared h = l) by (unfold Objects.shared; rewrite Hl; reflexivity).
  unfold Objects.get_tasks, Objects.append_task, Objects.remove_task.
  rewrite !self_tasks_wf by auto. rewrite Hl. subst st. rewrite Hsh.
  unfold remove_task, get_tasks. cbn.
  split; [reflexivity|]. split; [reflexivity|].
  split; [unfold Objects.shared; cbn; rewrite lookup_insert_eq; reflexivity|].
  destruct (list_remove task l) as [l'|]; cbn.
  - split; [reflexivity|]. unfold Objects.shared. cbn. rewrite lookup_insert_eq. reflexivity.
  - split; [reflexivity | exact Hsh].
Qed.

Lemma methods_act_on_shared_list_witness :
  let h := Objects.run [Objects.New; Objects.Append 0 (http_task 7); Objects.New] in
  let st := with_tasks (Objects.shared h) in
  is_Some (Objects.inst_dicts h !! 1%nat) /\
  Objects.get_tasks h 1 = Ok (get_tasks st) /\
  (Objects.append_task h 1 (http_task 8)).2 = Ok tt /\
  Objects.shared (Objects.append_task h 1 (http_task 8)).1 = tasks (append_task (http_task 8) st) /\
  (Objects.remove_task h 1 (http_task 8)).2 = (remove_task (http_task 8) st).2 /\
  Objects.shared (Objects.remove_task h 1 (http_task 8)).1 = tasks (remove_task (http_task 8) st).1.
Proof.
  intros h st.
  assert (H : is_Some (Objects.inst_dicts h !! 1%nat)) by (vm_compute; eauto).
  split; [exact H|].
  exact (methods_act_on_shared_list [Objects.New; Objects.Append 0 (http_task 7); Objects.New] 1 (http_task 8) H).
Defined.

End ObjectsMore.
